(** * StyleHive dashboard: the recommendation and co-occurrence engine

    A shallow embedding of [utils/data_prep.py], [utils/recommenders.py]
    and [utils/insights.py], followed by the properties of the engine.

    Conventions of the embedding.
    - A pandas/numpy [float64] is a rational [Q]; [NaN] does not occur in
      the values modelled here unless a definition says so.
    - A Python [int] is a [Z]; a length or a [top_n] count is a [nat].
    - A [frozenset] or [set] of products that the code iterates over is the
      list of its elements in iteration order; a [dict] whose order is
      observed is an association list, otherwise a [gmap].
    - Code that can raise returns a [result]. *)

From Stdlib Require Import ZArith QArith Qround Qabs String List Lia Lqa.
From stdpp Require Import gmap strings list sorting pretty.

Local Open Scope Z_scope.

(** ** Python prelude *)

Module Py.

Inductive exn : Set :=
  IndexError | KeyError | ValueError | TypeError | AttributeError.

Inductive result (A : Type) : Type :=
| Ok (a : A)
| Raise (e : exn).
Arguments Ok {A} a.
Arguments Raise {A} e.

#[global] Instance result_ret : MRet result := λ A, Ok.
#[global] Instance result_bind : MBind result :=
  λ A B f m, match m with Ok a => f a | Raise e => Raise e end.

(** [for x in l: s = body(s, x)], stopping at the first exception. *)
Fixpoint for_each {A S : Type} (body : S → A → result S) (l : list A) (s : S)
  : result S :=
  match l with
  | [] => Ok s
  | x :: l' => s' ← body s x; for_each body l' s'
  end.

Fixpoint enumerate_from {A : Type} (k : nat) (l : list A) : list (nat * A) :=
  match l with
  | [] => []
  | x :: l' => (k, x) :: enumerate_from (S k) l'
  end.

Definition enumerate {A : Type} (l : list A) : list (nat * A) :=
  enumerate_from 0 l.

(** [pandas.unique] / [Series.unique]: first occurrences, in order. *)
Definition unique {A : Type} `{EqDecision A} (l : list A) : list A :=
  fold_left (λ seen x, if decide (x ∈ seen) then seen else seen ++ [x]) l [].

Definition nunique {A : Type} `{EqDecision A} (l : list A) : nat :=
  length (unique l).

(** A stable ascending sort; [ltb x y] is [x < y]. *)
Fixpoint insert_asc {A : Type} (ltb : A → A → bool) (x : A) (l : list A)
  : list A :=
  match l with
  | [] => [x]
  | y :: l' => if ltb y x then y :: insert_asc ltb x l' else x :: l
  end.

Definition sort_asc {A : Type} (ltb : A → A → bool) (l : list A) : list A :=
  foldr (insert_asc ltb) [] l.

(** [l.sort(key=..., reverse=True)] and [sort_values(..., ascending=False)]:
    descending and stable (equal keys keep their original order). *)
Fixpoint insert_desc {A : Type} (ltb : A → A → bool) (x : A) (l : list A)
  : list A :=
  match l with
  | [] => [x]
  | y :: l' => if ltb x y then y :: insert_desc ltb x l' else x :: l
  end.

Definition sort_desc {A : Type} (ltb : A → A → bool) (l : list A) : list A :=
  foldr (insert_desc ltb) [] l.

(** [sorted(strings)] *)
Definition sorted (l : list string) : list string := sort_asc String.ltb l.

Definition Qltb (x y : Q) : bool := negb (Qle_bool y x).

#[global] Instance Qle_decision (x y : Q) : Decision (x <= y)%Q.
Proof.
  refine (cast_if (decide (Qle_bool x y = true))); by rewrite <- Qle_bool_iff.
Defined.

#[global] Instance Qlt_decision (x y : Q) : Decision (x < y)%Q.
Proof.
  refine (cast_if_not (decide (y <= x)%Q)).
  - by apply Qle_not_lt.
  - by apply Qnot_le_lt.
Defined.

(** [l[i]] *)
Definition getitem {A : Type} (l : list A) (i : nat) : result A :=
  match l !! i with Some x => Ok x | None => Raise IndexError end.

(** [l.index(x)], [Index.get_loc(x)]: the first position of [x]. *)
Definition index_of {A : Type} `{EqDecision A} (l : list A) (x : A)
  : result nat :=
  match list_find (λ y, y = x) l with
  | Some (i, _) => Ok i
  | None => Raise ValueError
  end.

(** An insertion-ordered [dict] with string keys. *)
Definition dict (V : Type) : Type := list (string * V).

Fixpoint dict_get {V : Type} (d : dict V) (k : string) : option V :=
  match d with
  | [] => None
  | (k', v) :: d' => if decide (k = k') then Some v else dict_get d' k
  end.

(** [d[k] = v]: a present key keeps its position, a new one goes last. *)
Fixpoint dict_set {V : Type} (d : dict V) (k : string) (v : V) : dict V :=
  match d with
  | [] => [(k, v)]
  | (k', v') :: d' =>
      if decide (k = k') then (k', v) :: d' else (k', v') :: dict_set d' k v
  end.

Definition dict_values {V : Type} (d : dict V) : list V := d.*2.

(** [round(x, 2)] and the like: to [d] decimals, ties to even. *)
Definition round_half_even (x : Q) : Z :=
  let f := Qfloor x in
  let r := (x - inject_Z f)%Q in
  match (r ?= 1 # 2)%Q with
  | Lt => f
  | Gt => f + 1
  | Eq => if Z.even f then f else f + 1
  end.

Definition round (x : Q) (d : nat) : Q :=
  (inject_Z (round_half_even (x * inject_Z (10 ^ Z.of_nat d)))
     / inject_Z (10 ^ Z.of_nat d))%Q.

Definition zfill (width : nat) (s : string) : string :=
  String.concat "" (replicate (width - String.length s) "0") +:+ s.

(** [f"{x:.df}"] *)
Definition format_fixed (d : nat) (x : Q) : string :=
  let n := round_half_even (Qabs x * inject_Z (10 ^ Z.of_nat d)) in
  let sign := if Qltb x 0 && (0 <? n) then "-" else "" in
  let ip := pretty (n / 10 ^ Z.of_nat d) in
  match d with
  | O => sign +:+ ip
  | _ => sign +:+ ip +:+ "." +:+ zfill d (pretty (n mod 10 ^ Z.of_nat d))
  end.

(** [f"{x:.1%}"] *)
Definition format_pct1 (x : Q) : string :=
  format_fixed 1 (x * 100) +:+ "%".

End Py.
Export Py.

(** ** utils/data_prep.py

    The methods of [DataPreprocessor] are functions of the loaded frame
    [self.df]; reading the CSV file ([load_data] on a path, and the
    [if self.df is None: self.load_data()] prologue of every method) is
    outside the model, which starts from the rows that [read_csv] yields. *)

Module DataPrep.

Record date : Set := { year : Z; month : Z; day : Z }.

#[global] Instance date_eq_dec : EqDecision date.
Proof. solve_decision. Defined.

Definition date_ltb (a b : date) : bool :=
  (year a <? year b)
  || ((year a =? year b)
      && ((month a <? month b)
          || ((month a =? month b) && (day a <? day b)))).

(** The three columns of the transaction log, as [read_csv] yields them. *)
Record RawRow : Set := { raw_customer : Z; raw_product : string; raw_date : date }.

Record Row : Set := {
  CustomerID : Z;
  Product : string;
  Date : date;
  Year : Z;
  Month : Z;
  DayOfWeek : string;
  Season : option string      (* [None] is NaN: a month outside the map *)
}.

(** The frame [self.df]: the loaded rows, and the [Price] column when a
    caller has assigned one. *)
Record DataFrame : Type := {
  rows : list Row;
  Price : option (list (option Z))   (* an inner [None] is NaN *)
}.

Definition columns (df : DataFrame) : list string :=
  ["CustomerID"; "Product"; "Date"; "Year"; "Month"; "DayOfWeek"; "Season"]
  ++ match Price df with Some _ => ["Price"] | None => [] end.

Definition season_of_month (m : Z) : option string :=
  if bool_decide (m ∈ [12; 1; 2]) then Some "Winter"
  else if bool_decide (m ∈ [3; 4; 5]) then Some "Spring"
  else if bool_decide (m ∈ [6; 7; 8]) then Some "Summer"
  else if bool_decide (m ∈ [9; 10; 11]) then Some "Fall"
  else None.

Definition day_name (d : date) : string :=
  let t := [0; 3; 2; 5; 0; 3; 5; 1; 4; 6; 2; 4] in
  let y := if month d <? 3 then year d - 1 else year d in
  let w := (y + y / 4 - y / 100 + y / 400
            + nth (Z.to_nat (month d - 1)) t 0 + day d) mod 7 in
  nth (Z.to_nat w)
    ["Sunday"; "Monday"; "Tuesday"; "Wednesday"; "Thursday"; "Friday";
     "Saturday"] "".

Definition load_row (r : RawRow) : Row :=
  {| CustomerID := raw_customer r;
     Product := raw_product r;
     Date := raw_date r;
     Year := year (raw_date r);
     Month := month (raw_date r);
     DayOfWeek := day_name (raw_date r);
     Season := season_of_month (month (raw_date r)) |}.

Definition load_data (csv : list RawRow) : DataFrame :=
  {| rows := map load_row csv; Price := None |}.

(** [groupby(keys)[col].apply(list)]: groups in ascending key order (the
    pandas default [sort=True]), rows of a group in frame order. *)
Section groupby.
Context {A K V : Type} `{EqDecision K} (ltb : K → K → bool).

Fixpoint group_insert (k : K) (v : V) (groups : list (K * list V))
  : list (K * list V) :=
  match groups with
  | [] => [(k, [v])]
  | (k', vs) :: rest =>
      if decide (k = k') then (k', vs ++ [v]) :: rest
      else if ltb k k' then (k, [v]) :: groups
      else (k', vs) :: group_insert k v rest
  end.

Definition groupby (key : A → K) (val : A → V) (l : list A)
  : list (K * list V) :=
  fold_left (λ groups r, group_insert (key r) (val r) groups) l [].
End groupby.

Definition visit_ltb (a b : Z * date) : bool :=
  (a.1 <? b.1) || ((a.1 =? b.1) && date_ltb a.2 b.2).

(** [self.df.groupby(['CustomerID', 'Date'])['Product'].apply(list).tolist()] *)
Definition baskets_of (df : DataFrame) : list (list string) :=
  (groupby visit_ltb (λ r, (CustomerID r, Date r)) Product (rows df)).*2.

Definition get_basket_data (df : DataFrame) : list (list string) :=
  let baskets := baskets_of df in
  let multi_item_baskets := filter (λ basket, (1 < length basket)%nat) baskets in
  if decide (1000 < length multi_item_baskets)%nat
  then take 1000 multi_item_baskets
  else multi_item_baskets.

(** The customer x product count matrix of [get_transaction_matrix]
    ([groupby(...).size()], [pivot], [fillna(0)]). *)
Record Matrix : Type := {
  m_index : list Z;
  m_columns : list string;
  m_values : list (list Q)
}.

Definition get_transaction_matrix (df : DataFrame) : Matrix :=
  let customers := sort_asc Z.ltb (unique (CustomerID <$> rows df)) in
  let products := sorted (unique (Product <$> rows df)) in
  {| m_index := customers;
     m_columns := products;
     m_values :=
       (λ c, (λ p, inject_Z (Z.of_nat (length
                (filter (λ r, CustomerID r = c ∧ Product r = p) (rows df)))))
             <$> products) <$> customers |}.

(** The square co-occurrence frame: its labels and its cells. *)
Record CoOccurrence : Type := {
  co_index : list string;
  co_cells : gmap (string * string) Z
}.

(** [pd.DataFrame(0, index=products, columns=products)] *)
Definition zeros (products : list string) : gmap (string * string) Z :=
  gset_to_gmap 0 (list_to_set (p1 ← products; p2 ← products; [(p1, p2)])).

(** [co_occurrence.loc[product1, product2] += 1] *)
Definition loc_incr (p1 p2 : string) (cells : gmap (string * string) Z)
  : result (gmap (string * string) Z) :=
  match cells !! (p1, p2) with
  | Some c => Ok (<[(p1, p2) := c + 1]> cells)
  | None => Raise KeyError
  end.

Definition co_inner (i : nat) (product1 : string) (basket : list string)
    (cells : gmap (string * string) Z) : result (gmap (string * string) Z) :=
  for_each (λ cells '(j, product2),
              if decide (i ≠ j) then loc_incr product1 product2 cells
              else Ok cells)
           (enumerate basket) cells.

Definition co_basket (cells : gmap (string * string) Z) (basket : list string)
  : result (gmap (string * string) Z) :=
  if decide (1 < length basket)%nat
  then for_each (λ cells '(i, product1), co_inner i product1 basket cells)
                (enumerate basket) cells
  else Ok cells.

(** The body of [get_co_occurrence_matrix] once the baskets and the
    product labels are known. *)
Definition co_occurrence (products : list string) (baskets : list (list string))
  : result CoOccurrence :=
  cells ← for_each co_basket baskets (zeros products);
  Ok {| co_index := products; co_cells := cells |}.

Definition get_co_occurrence_matrix (df : DataFrame) : result CoOccurrence :=
  let baskets := baskets_of df in
  let products := sorted (unique (Product <$> rows df)) in
  co_occurrence products baskets.

End DataPrep.

(** ** utils/recommenders.py *)

Module Recommenders.
Import DataPrep.

(** *** Market-basket analysis *)

(** A row of the frequent-itemset frame and a row of the rule frame.  An
    itemset, an antecedent and a consequent are [frozenset]s. *)
Record Itemset : Type := { fi_support : Q; itemsets : list string }.

Record Rule : Type := {
  antecedents : list string;
  consequents : list string;
  support : Q;
  confidence : Q;
  lift : Q
}.

Record MarketBasketAnalyzer : Type := {
  min_support : Q;
  min_confidence : Q;
  frequent_itemsets : option (list Itemset);
  rules : option (list Rule)
}.

(** [MarketBasketAnalyzer(min_support, min_confidence)] *)
Definition MarketBasketAnalyzer_init (min_support min_confidence : Q)
  : MarketBasketAnalyzer :=
  {| min_support := min_support; min_confidence := min_confidence;
     frequent_itemsets := None; rules := None |}.

(** The one-hot presence frame [df_baskets]. *)
Record Presence : Type := {
  p_columns : list string;
  p_rows : list (list bool)
}.

(** Modelled from the spec: mlxtend's [TransactionEncoder], a library
    class outside the repository, as [fit] uses it:
    [te.fit(baskets).transform(baskets)] with [columns=te.columns_] encodes
    the baskets into a presence matrix whose columns are the sorted
    distinct items. *)
Definition transaction_encode (baskets : list (list string)) : Presence :=
  let columns_ := sorted (unique (concat baskets)) in
  {| p_columns := columns_;
     p_rows := (λ basket, (λ c, bool_decide (c ∈ basket)) <$> columns_)
               <$> baskets |}.

Definition row_has (columns_ : list string) (row : list bool) (item : string)
  : Prop :=
  (item, true) ∈ zip columns_ row.

#[global] Instance row_has_dec columns_ row item :
  Decision (row_has columns_ row item).
Proof. unfold row_has. apply _. Defined.

(** Modelled from the spec: [mlxtend.frequent_patterns.apriori] is a
    library routine outside the repository.  Support of an itemset is the
    fraction of rows of the presence frame that contain all its items. *)
Definition support_of (X : Presence) (itemset : list string) : Q :=
  inject_Z (Z.of_nat (length
    (filter (λ row, Forall (row_has (p_columns X) row) itemset) (p_rows X))))
  / inject_Z (Z.of_nat (length (p_rows X))).

(** Modelled from the spec: the candidate itemsets of the miner, which is
    outside the repository: the sublists of [l] that have [k] elements, in
    lexicographic order of positions. *)
Fixpoint combinations {A : Type} (k : nat) (l : list A) : list (list A) :=
  match k, l with
  | O, _ => [[]]
  | S _, [] => []
  | S k', x :: l' => (cons x <$> combinations k' l') ++ combinations k l'
  end.

(** Modelled from the spec: [apriori(df, min_support, use_colnames=True)],
    the library routine that mines the itemsets: every non-empty set of
    columns whose support is at least [min_support], by increasing size. *)
Definition apriori (X : Presence) (min_support : Q) : list Itemset :=
  filter (λ r, (min_support <= fi_support r)%Q)
    (k ← seq 1 (length (p_columns X));
     (λ s, {| fi_support := support_of X s; itemsets := s |})
       <$> combinations k (p_columns X)).

(** Modelled from the spec: the support that the frequent-itemset frame
    records for an itemset, as the rule generator (outside the repository)
    looks it up. *)
Definition lookup_support (table : list Itemset) (s : list string) : option Q :=
  (λ found, fi_support found.2) <$> list_find (λ r, itemsets r = s) table.

(** Modelled from the spec: the rules that
    [association_rules(frequent_itemsets, metric="confidence", min_threshold)]
    (a library routine outside the repository) derives from one itemset:
    every split into a non-empty antecedent and a non-empty consequent
    whose supports are in the table, with
    confidence = support(itemset) / support(antecedent) and
    lift = confidence / support(consequent), kept when
    confidence >= min_threshold. *)
Definition rules_of_itemset (table : list Itemset) (min_threshold : Q)
    (r : Itemset) : list Rule :=
  idx ← reverse (seq 1 (length (itemsets r) - 1));
  antecedent ← combinations idx (itemsets r);
  let consequent := filter (λ p, p ∉ antecedent) (itemsets r) in
  match lookup_support table antecedent, lookup_support table consequent with
  | Some sA, Some sC =>
      let conf := (fi_support r / sA)%Q in
      if decide (min_threshold <= conf)%Q
      then [{| antecedents := antecedent; consequents := consequent;
               support := fi_support r; confidence := conf;
               lift := (conf / sC)%Q |}]
      else []
  | _, _ => []
  end.

(** Modelled from the spec: [association_rules] over the whole table. *)
Definition association_rules (table : list Itemset) (min_threshold : Q)
  : list Rule :=
  r ← table; rules_of_itemset table min_threshold r.

Definition fit (self : MarketBasketAnalyzer) (baskets : list (list string))
  : MarketBasketAnalyzer :=
  let df_baskets := transaction_encode baskets in
  let frequent_itemsets := apriori df_baskets (min_support self) in
  let rules :=
    if decide (0 < length frequent_itemsets)%nat
    then association_rules frequent_itemsets (min_confidence self)
    else [] in
  {| min_support := min_support self;
     min_confidence := min_confidence self;
     frequent_itemsets := Some frequent_itemsets;
     rules := Some rules |}.

(** The recommendation dictionaries of the two market-basket queries. *)
Module MBARec.
Record t : Type := {
  product : string;
  confidence : Q;
  lift : Q;
  support : Q;
  explanation : string
}.
End MBARec.

(** [x < y] in the order of [sort_values(['confidence', 'lift'])]. *)
Definition rule_ltb (x y : Rule) : bool :=
  Qltb (confidence x) (confidence y)
  || (Qeq_bool (confidence x) (confidence y) && Qltb (lift x) (lift y)).

(** [frame.sort_values(['confidence', 'lift'], ascending=False)] *)
Definition sort_values (frame : list Rule) : list Rule :=
  sort_desc rule_ltb frame.

(** [list(rule['consequents'])[0]] *)
Definition first_consequent (rule : Rule) : result string :=
  getitem (consequents rule) 0.

Definition product_rec (product : string) (rule : Rule) (consequent : string)
  : MBARec.t :=
  {| MBARec.product := consequent;
     MBARec.confidence := confidence rule;
     MBARec.lift := lift rule;
     MBARec.support := support rule;
     MBARec.explanation :=
       format_pct1 (confidence rule) +:+ " of customers who bought "
       +:+ product +:+ " also bought " +:+ consequent |}.

Definition get_recommendations (self : MarketBasketAnalyzer)
    (product : string) (top_n : nat) : result (list MBARec.t) :=
  match rules self with
  | None => Ok []
  | Some rules =>
      if decide (length rules = 0)%nat then Ok [] else
      let product_rules := filter (λ r, product ∈ antecedents r) rules in
      if decide (length product_rules = 0)%nat then Ok [] else
      let product_rules := sort_values product_rules in
      for_each
        (λ recommendations rule,
           consequent ← first_consequent rule;
           if decide (consequent ≠ product)
           then Ok (recommendations ++ [product_rec product rule consequent])
           else Ok recommendations)
        (take top_n product_rules) []
  end.

Definition basket_rec (basket : list string) (rule : Rule)
    (consequent : string) : MBARec.t :=
  {| MBARec.product := consequent;
     MBARec.confidence := confidence rule;
     MBARec.lift := lift rule;
     MBARec.support := support rule;
     MBARec.explanation :=
       format_pct1 (confidence rule) +:+ " of customers who bought "
       +:+ String.concat ", " basket +:+ " also bought " +:+ consequent |}.

(** The [for _, rule in basket_rules.iterrows()] loop, with its [break]. *)
Fixpoint basket_loop (basket : list string) (top_n : nat)
    (basket_rules : list Rule) (recommendations : list MBARec.t)
    (seen_products : gset string) : result (list MBARec.t) :=
  match basket_rules with
  | [] => Ok recommendations
  | rule :: rest =>
      consequent ← first_consequent rule;
      if decide (consequent ∉ seen_products) then
        let recommendations :=
          recommendations ++ [basket_rec basket rule consequent] in
        let seen_products := seen_products ∪ {[consequent]} in
        if decide (top_n ≤ length recommendations)%nat
        then Ok recommendations
        else basket_loop basket top_n rest recommendations seen_products
      else basket_loop basket top_n rest recommendations seen_products
  end.

Definition get_basket_recommendations (self : MarketBasketAnalyzer)
    (basket : list string) (top_n : nat) : result (list MBARec.t) :=
  match rules self with
  | None => Ok []
  | Some rules =>
      if decide (length rules = 0)%nat then Ok [] else
      let basket_rules :=
        filter (λ r, Forall (λ p, p ∈ antecedents r) basket) rules in
      let basket_rules :=
        if decide (length basket_rules = 0)%nat
        then filter (λ r, Exists (λ p, p ∈ antecedents r) basket) rules
        else basket_rules in
      if decide (length basket_rules = 0)%nat then Ok [] else
      let basket_rules := sort_values basket_rules in
      basket_loop basket top_n basket_rules [] (list_to_set basket)
  end.

(** *** Collaborative filtering *)

Record CollaborativeFilteringRecommender : Type := {
  n_components : nat;
  user_factors : option (list (list Q));
  item_factors : option (list (list Q));
  user_item_matrix : option Matrix;
  products : option (list string)
}.

Definition CollaborativeFilteringRecommender_init (n_components : nat)
  : CollaborativeFilteringRecommender :=
  {| n_components := n_components; user_factors := None;
     item_factors := None; user_item_matrix := None; products := None |}.

(** The recommendation dictionaries of the two queries. *)
Module UserRec.
Record t : Type := { product : string; score : Q; explanation : string }.
End UserRec.

Module SimRec.
Record t : Type := { product : string; similarity : Q; explanation : string }.
End SimRec.

(** An entry of [combined_scores] of the hybrid recommender; a key that
    was never assigned is [None]. *)
Module HybridRec.
Record t : Type := {
  product : string;
  score : Q;
  mba_confidence : option Q;
  cf_similarity : option Q;
  explanation : string
}.
End HybridRec.

(** An attribute that is still [None] has no [index], no [in]. *)
Definition fitted {A : Type} (field : option A) (e : exn) : result A :=
  match field with Some x => Ok x | None => Raise e end.

(** [components_.T] for a frame of [n] columns. *)
Definition transpose (n : nat) (components_ : list (list Q)) : list (list Q) :=
  (λ j, (λ row, nth j row 0%Q) <$> components_) <$> seq 0 n.

Definition dot (u v : list Q) : result Q :=
  if decide (length u = length v)
  then Ok (foldr Qplus 0%Q (zip_with Qmult u v))
  else Raise ValueError.

(** [np.dot(matrix, vector)] *)
Definition np_dot (matrix : list (list Q)) (vector : list Q) : result (list Q) :=
  for_each (λ acc row, x ← dot row vector; Ok (acc ++ [x])) matrix [].

Section collaborative_filtering.
(** The two scikit-learn routines are parameters of the model:
    [TruncatedSVD(n_components, random_state=42)], as the pair of
    [fit_transform(matrix)] and [components_], and [cosine_similarity]
    on two vectors. *)
Variable TruncatedSVD :
  nat → list (list Q) → list (list Q) * list (list Q).
Variable cosine_similarity : list Q → list Q → Q.

Definition cf_fit (self : CollaborativeFilteringRecommender)
    (user_item_matrix : Matrix) : CollaborativeFilteringRecommender :=
  let svd := TruncatedSVD (n_components self) (m_values user_item_matrix) in
  {| n_components := n_components self;
     user_factors := Some svd.1;
     item_factors :=
       Some (transpose (length (m_columns user_item_matrix)) svd.2);
     user_item_matrix := Some user_item_matrix;
     products := Some (m_columns user_item_matrix) |}.

(** The [for product, score in product_scores] loop, with its [break]. *)
Fixpoint user_loop (purchased_products : list string) (top_n : nat)
    (product_scores : list (string * Q)) (recommendations : list UserRec.t)
  : list UserRec.t :=
  match product_scores with
  | [] => recommendations
  | (product, score) :: rest =>
      if decide (product ∉ purchased_products) then
        let recommendations :=
          recommendations
          ++ [{| UserRec.product := product; UserRec.score := score;
                 UserRec.explanation :=
                   "Based on similar customers' preferences" |}] in
        if decide (top_n ≤ length recommendations)%nat
        then recommendations
        else user_loop purchased_products top_n rest recommendations
      else user_loop purchased_products top_n rest recommendations
  end.

Definition get_user_recommendations
    (self : CollaborativeFilteringRecommender) (user_id : Z) (top_n : nat)
  : result (list UserRec.t) :=
  uim ← fitted (user_item_matrix self) AttributeError;
  if decide (user_id ∉ m_index uim) then Ok [] else
  loc ← index_of (m_index uim) user_id;
  user_purchases ← getitem (m_values uim) loc;
  let purchased_products :=
    (filter (λ cell, (0 < cell.2)%Q) (zip (m_columns uim) user_purchases)).*1 in
  uf ← fitted (user_factors self) TypeError;
  user_vector ← getitem uf loc;
  itf ← fitted (item_factors self) TypeError;
  predicted_ratings ← np_dot itf user_vector;
  ps ← fitted (products self) TypeError;
  let product_scores :=
    sort_desc (λ x y, Qltb x.2 y.2) (zip ps predicted_ratings) in
  Ok (user_loop purchased_products top_n product_scores []).

Definition get_product_similarity
    (self : CollaborativeFilteringRecommender) (product : string)
    (top_n : nat) : result (list SimRec.t) :=
  ps ← fitted (products self) TypeError;
  if decide (product ∉ ps) then Ok [] else
  product_idx ← index_of ps product;
  itf ← fitted (item_factors self) TypeError;
  product_vector ← getitem itf product_idx;
  similarities ←
    for_each (λ similarities '(i, other_product),
                if decide (other_product ≠ product) then
                  other_vector ← getitem itf i;
                  Ok (similarities
                      ++ [(other_product,
                           cosine_similarity product_vector other_vector)])
                else Ok similarities)
             (enumerate ps) [];
  let similarities := sort_desc (λ x y, Qltb x.2 y.2) similarities in
  Ok ((λ '(other_product, similarity),
         {| SimRec.product := other_product;
            SimRec.similarity := similarity;
            SimRec.explanation :=
              "Similar to " +:+ product
              +:+ " based on customer preferences" |})
      <$> take top_n similarities).

(** *** The hybrid recommender *)

Record HybridRecommender : Type := {
  mba_weight : Q;
  cf_weight : Q;
  mba : MarketBasketAnalyzer;
  cf : CollaborativeFilteringRecommender
}.

Definition HybridRecommender_init (mba_weight cf_weight : Q)
  : HybridRecommender :=
  {| mba_weight := mba_weight; cf_weight := cf_weight;
     mba := MarketBasketAnalyzer_init (1 # 100) (1 # 10);
     cf := CollaborativeFilteringRecommender_init 10 |}.

Definition hybrid_fit (self : HybridRecommender)
    (baskets : list (list string)) (user_item_matrix : Matrix)
  : HybridRecommender :=
  {| mba_weight := mba_weight self; cf_weight := cf_weight self;
     mba := fit (mba self) baskets;
     cf := cf_fit (cf self) user_item_matrix |}.

Definition add_mba_scores (mba_weight : Q) (mba_recs : list MBARec.t)
    (combined_scores : dict HybridRec.t) : dict HybridRec.t :=
  fold_left
    (λ combined_scores rec,
       let product_name := MBARec.product rec in
       let score := (MBARec.confidence rec * mba_weight)%Q in
       dict_set combined_scores product_name
         {| HybridRec.product := product_name;
            HybridRec.score := score;
            HybridRec.mba_confidence := Some (MBARec.confidence rec);
            HybridRec.cf_similarity := None;
            HybridRec.explanation := MBARec.explanation rec |})
    mba_recs combined_scores.

Definition add_cf_scores (cf_weight : Q) (cf_recs : list SimRec.t)
    (combined_scores : dict HybridRec.t) : dict HybridRec.t :=
  fold_left
    (λ combined_scores rec,
       let product_name := SimRec.product rec in
       let cf_score := (SimRec.similarity rec * cf_weight)%Q in
       match dict_get combined_scores product_name with
       | Some entry =>
           dict_set combined_scores product_name
             {| HybridRec.product := HybridRec.product entry;
                HybridRec.score := (HybridRec.score entry + cf_score)%Q;
                HybridRec.mba_confidence := HybridRec.mba_confidence entry;
                HybridRec.cf_similarity := Some (SimRec.similarity rec);
                HybridRec.explanation := HybridRec.explanation entry |}
       | None =>
           dict_set combined_scores product_name
             {| HybridRec.product := product_name;
                HybridRec.score := cf_score;
                HybridRec.mba_confidence := None;
                HybridRec.cf_similarity := Some (SimRec.similarity rec);
                HybridRec.explanation := SimRec.explanation rec |}
       end)
    cf_recs combined_scores.

Definition hybrid_get_recommendations (self : HybridRecommender)
    (product : string) (top_n : nat) : result (list HybridRec.t) :=
  mba_recs ← get_recommendations (mba self) product (top_n * 2);
  cf_recs ← get_product_similarity (cf self) product (top_n * 2);
  let combined_scores := add_mba_scores (mba_weight self) mba_recs [] in
  let combined_scores := add_cf_scores (cf_weight self) cf_recs combined_scores in
  let final_recommendations :=
    sort_desc (λ x y, Qltb (HybridRec.score x) (HybridRec.score y))
      (dict_values combined_scores) in
  Ok (take top_n final_recommendations).

End collaborative_filtering.

End Recommenders.

(** ** utils/insights.py *)

Module Insights.
Import DataPrep.

(** Frames are objects: the store maps a reference to the frame it
    denotes, and two attributes that hold the same reference see the same
    frame. *)
Abbreviation ref := positive.
Abbreviation store := (gmap ref DataFrame).

(** [DataPreprocessor]: [df] is [None] until [load_data] has run. *)
Record DataPreprocessor : Type := {
  data_path : string;
  dp_df : option ref
}.

(** [BusinessInsights.__init__] copies the reference
    [data_preprocessor.df] into [self.df] and computes the co-occurrence
    frame once.  (The [product_stats] attribute, read only by
    [get_top_products], is left out.) *)
Record BusinessInsights : Type := {
  dp : DataPreprocessor;
  df : option ref;
  co_occurrence : CoOccurrence
}.

Definition deref (σ : store) (r : option ref) : result DataFrame :=
  match r with
  | Some l => match σ !! l with Some frame => Ok frame | None => Raise TypeError end
  | None => Raise TypeError
  end.

Definition BusinessInsights_init (data_preprocessor : DataPreprocessor)
    (σ : store) : result BusinessInsights :=
  frame ← deref σ (dp_df data_preprocessor);
  co ← get_co_occurrence_matrix frame;
  Ok {| dp := data_preprocessor;
        df := dp_df data_preprocessor;
        co_occurrence := co |}.

Record KPIs : Type := {
  total_transactions : nat;
  unique_customers : nat;
  unique_products : nat;
  avg_basket_size : Q;
  total_revenue : Q;
  avg_order_value : Q;
  date_range : string
}.

Definition price_mapping : gmap string Z :=
  list_to_map
    [("White T-shirt", 25); ("Blue Jeans", 60); ("Sneakers", 80);
     ("Leather Jacket", 200); ("Sunglasses", 50); ("Backpack", 40);
     ("Hoodie", 45); ("Formal Shirt", 70); ("Dress Shoes", 120);
     ("Smartwatch", 300)].

(** [Series.sum()]: NaN cells are skipped. *)
Definition nansum (column : list (option Z)) : Z :=
  foldr (λ cell acc, match cell with Some x => x + acc | None => acc end) 0 column.

Definition date_min (d : date) (l : list date) : date :=
  foldr (λ x acc, if date_ltb x acc then x else acc) d l.

Definition date_max (d : date) (l : list date) : date :=
  foldr (λ x acc, if date_ltb acc x then x else acc) d l.

(** [d.strftime('%Y-%m-%d')] *)
Definition strftime (d : date) : string :=
  zfill 4 (pretty (year d)) +:+ "-" +:+ zfill 2 (pretty (month d))
  +:+ "-" +:+ zfill 2 (pretty (day d)).

(** [get_kpis] assigns the [Price] column on the frame behind [self.df]
    before it reads it back, so it returns the store as well.  On an empty
    frame the averages are NaN and [NaT.strftime] raises. *)
Definition get_kpis (self : BusinessInsights) (σ : store)
  : result KPIs * store :=
  match df self, deref σ (df self) with
  | Some l, Ok frame =>
      let total_transactions := length (rows frame) in
      let unique_customers := nunique (CustomerID <$> rows frame) in
      let unique_products := nunique (Product <$> rows frame) in
      let baskets :=
        groupby visit_ltb (λ r, (CustomerID r, Date r)) Product (rows frame) in
      let sizes := (λ g, Z.of_nat (length g.2)) <$> baskets in
      let ngroups := Z.of_nat (length baskets) in
      let total_size := foldr Z.add 0 sizes in
      let avg_basket_size := (inject_Z total_size / inject_Z ngroups)%Q in
      let price := (λ r, price_mapping !! Product r) <$> rows frame in
      let σ' := <[l := {| rows := rows frame; Price := Some price |}]> σ in
      let total_revenue := inject_Z (nansum price) in
      let avg_order_value := (total_revenue / inject_Z ngroups)%Q in
      match Date <$> rows frame with
      | [] => (Raise ValueError, σ')
      | d :: ds =>
          (Ok {| total_transactions := total_transactions;
                 unique_customers := unique_customers;
                 unique_products := unique_products;
                 avg_basket_size := round avg_basket_size 2;
                 total_revenue := round total_revenue 2;
                 avg_order_value := round avg_order_value 2;
                 date_range :=
                   strftime (date_min d ds) +:+ " to "
                   +:+ strftime (date_max d ds) |},
           σ')
      end
  | _, Raise e => (Raise e, σ)
  | None, _ => (Raise TypeError, σ)
  end.

(** A row of [customer_stats], as [categorize_customer] receives it. *)
Record CustomerStats : Type := {
  TotalPurchases : Z;
  ActiveDays : Z;
  AvgPurchasesPerDay : Q
}.

Definition categorize_customer (row : CustomerStats) : string :=
  if decide (10 ≤ TotalPurchases row ∧ (1 # 2 <= AvgPurchasesPerDay row)%Q)
  then "High Value"
  else if decide (5 ≤ TotalPurchases row) then "Medium Value"
  else "Low Value".

(** A row of the returned [customer_stats]: its index label, the three
    aggregates and the [Segment] column. *)
Record SegmentedCustomer : Type := {
  customer : Z;
  stats : CustomerStats;
  Segment : string
}.

Record CustomerSegments : Type := {
  segment_distribution : gmap string nat;
  customer_stats : list SegmentedCustomer
}.

(** [groupby('CustomerID').agg({'Product': 'count', 'Date': 'nunique'})]
    with the derived [AvgPurchasesPerDay]. *)
Definition customer_aggregates (frame : DataFrame) : list (Z * CustomerStats) :=
  (λ g, let total := Z.of_nat (length g.2) in
        let days := Z.of_nat (nunique g.2) in
        (g.1, {| TotalPurchases := total;
                 ActiveDays := days;
                 AvgPurchasesPerDay := (inject_Z total / inject_Z days)%Q |}))
  <$> groupby Z.ltb CustomerID Date (rows frame).

(** [Series.value_counts().to_dict()] *)
Definition value_counts (l : list string) : gmap string nat :=
  foldr (λ x m, <[x := S (default 0%nat (m !! x))]> m) ∅ l.

Definition get_customer_segments (self : BusinessInsights) (σ : store)
  : result CustomerSegments :=
  frame ← deref σ (df self);
  let customer_stats :=
    (λ row, {| customer := row.1; stats := row.2;
               Segment := categorize_customer row.2 |})
    <$> customer_aggregates frame in
  Ok {| segment_distribution := value_counts (Segment <$> customer_stats);
        customer_stats := customer_stats |}.

Record CoPurchaseInsight : Type := {
  ci_product1 : string;
  ci_product2 : string;
  ci_co_purchases : Z;
  ci_percentage : Q;
  ci_insight : string
}.

Definition total_purchases (frame : DataFrame) (product : string) : Z :=
  Z.of_nat (length (filter (λ r, Product r = product) (rows frame))).

(** [get_co_purchase_insights] works on a copy of the co-occurrence frame
    whose diagonal it has zeroed; [self.co_occurrence] is not touched. *)
Definition get_co_purchase_insights (self : BusinessInsights) (σ : store)
  : result (list CoPurchaseInsight) :=
  frame ← deref σ (df self);
  let labels := co_index (co_occurrence self) in
  let co_occurrence_copy :=
    foldr (λ p cells, <[(p, p) := 0]> cells) (co_cells (co_occurrence self))
          labels in
  insights ←
    for_each
      (λ insights '(product1, product2),
         if decide (product1 ≠ product2) then
           match co_occurrence_copy !! (product1, product2) with
           | None => Raise KeyError
           | Some co_purchases =>
               if decide (0 < co_purchases) then
                 let total_purchases_1 := total_purchases frame product1 in
                 let percentage :=
                   (inject_Z co_purchases / inject_Z total_purchases_1 * 100)%Q in
                 if decide (20 < percentage)%Q then
                   Ok (insights
                       ++ [{| ci_product1 := product1;
                              ci_product2 := product2;
                              ci_co_purchases := co_purchases;
                              ci_percentage := round percentage 1;
                              ci_insight :=
                                format_fixed 1 percentage
                                +:+ "% of customers who bought " +:+ product1
                                +:+ " also bought " +:+ product2 |}])
                 else Ok insights
               else Ok insights
           end
         else Ok insights)
      (product1 ← labels; product2 ← labels; [(product1, product2)]) [];
  Ok (take 10 (sort_desc (λ x y, Qltb (ci_percentage x) (ci_percentage y))
                 insights)).

End Insights.

(** ** Counting functions used to state what the loops compute *)

Module Counting.
Import DataPrep.

(** Number of rows of a basket that carry product [A]. *)
Definition occ (A : string) (l : list string) : Z :=
  Z.of_nat (length (filter (λ x, x = A) l)).

Definition hit (b : bool) : Z := if b then 1 else 0.

(** Increments that the inner loop makes to cell [k] for a fixed outer
    position [i] holding [p1]. *)
Definition inner_hits (i : nat) (p1 : string) (ens : list (nat * string))
    (k : string * string) : Z :=
  foldr (λ e acc, hit (bool_decide (i ≠ e.1 ∧ (p1, e.2) = k)) + acc) 0 ens.

Definition outer_hits (basket : list string) (ens : list (nat * string))
    (k : string * string) : Z :=
  foldr (λ e acc, inner_hits e.1 e.2 (enumerate basket) k + acc) 0 ens.

Definition basket_hits (basket : list string) (k : string * string) : Z :=
  if decide (1 < length basket)%nat
  then outer_hits basket (enumerate basket) k
  else 0.

Definition total_hits (baskets : list (list string)) (k : string * string) : Z :=
  foldr (λ b acc, basket_hits b k + acc) 0 baskets.

(** [cells'] is [cells] with [δ k] added to every cell [k] it has. *)
Definition adds (δ : string * string → Z)
    (cells cells' : gmap (string * string) Z) : Prop :=
  ∀ k, cells' !! k = (λ c, c + δ k) <$> cells !! k.

(** The values that [groups] holds under key [k]; none if [k] is no key. *)
Fixpoint group_of {K V : Type} `{EqDecision K} (k : K) (groups : list (K * list V))
  : list V :=
  match groups with
  | [] => []
  | (k', vs) :: rest => if decide (k = k') then vs else group_of k rest
  end.

(** Groups in strictly ascending key order. *)
Definition ascending_keys {K V : Type} (ltb : K → K → bool)
    (groups : list (K * list V)) : Prop :=
  StronglySorted (λ g1 g2, ltb g1.1 g2.1 = true) groups.

End Counting.

(** ** The queries as the specification words them *)

Module Contract.
Import DataPrep Recommenders.

(** What the rule miner guarantees of every rule it emits: a non-empty
    consequent that shares no product with the antecedent. *)
Definition rule_wf (r : Rule) : Prop :=
  consequents r ≠ [] ∧ Forall (λ p, p ∉ consequents r) (antecedents r).

#[global] Instance rule_wf_dec r : Decision (rule_wf r).
Proof. unfold rule_wf. apply _. Defined.

(** The trivial case: the consequent is the same set as the antecedent. *)
Definition trivial_rule (r : Rule) : Prop :=
  (list_to_set (consequents r) : gset string) = list_to_set (antecedents r).

#[global] Instance trivial_rule_dec r : Decision (trivial_rule r).
Proof. unfold trivial_rule. apply _. Defined.

(** The product a rule recommends: the first of its consequent. *)
Definition recommended (r : Rule) : string := hd EmptyString (consequents r).

(** [recommendForProduct]: select, exclude the trivial case, order,
    truncate. *)
Definition recommendForProduct (rules : list Rule) (product : string)
    (topN : nat) : list MBARec.t :=
  let selected := filter (λ r, product ∈ antecedents r) rules in
  let kept := filter (λ r, ¬ trivial_rule r) selected in
  let ordered := sort_values kept in
  (λ r, product_rec product r (recommended r)) <$> take topN ordered.

(** [x] ranks strictly below [y] by (confidence, lift). *)
Definition rec_ltb (x y : MBARec.t) : bool :=
  Qltb (MBARec.confidence x) (MBARec.confidence y)
  || (Qeq_bool (MBARec.confidence x) (MBARec.confidence y)
      && Qltb (MBARec.lift x) (MBARec.lift y)).




(** The rules that bring a product not seen so far, in order. *)
Fixpoint first_seen (rules : list Rule) (seen : list string) : list Rule :=
  match rules with
  | [] => []
  | r :: rest =>
      if decide (recommended r ∈ seen) then first_seen rest seen
      else r :: first_seen rest (recommended r :: seen)
  end.


(** A fitted collaborative-filtering model: one latent vector per
    product column, and distinct column labels (as [pivot] yields). *)
Definition cf_fitted (self : CollaborativeFilteringRecommender) : Prop :=
  match products self, item_factors self with
  | Some ps, Some itf => length itf = length ps ∧ NoDup ps
  | _, _ => False
  end.

#[global] Instance cf_fitted_dec self : Decision (cf_fitted self).
Proof.
  unfold cf_fitted. destruct (products self), (item_factors self); apply _.
Defined.

(** The sub-scores that the merge keeps for a product: the confidence of
    the last market-basket candidate that names it, and the similarity of
    the collaborative-filtering candidate that names it. *)
Definition last_confidence (mba_recs : list MBARec.t) (p : string) : option Q :=
  MBARec.confidence <$> last (filter (λ r, MBARec.product r = p) mba_recs).

Definition similarity_of (cf_recs : list SimRec.t) (p : string) : option Q :=
  SimRec.similarity <$> head (filter (λ r, SimRec.product r = p) cf_recs).

(** The weighted sum; a missing sub-score contributes no term. *)
Definition blend (w_mba w_cf : Q) (c s : option Q) : Q :=
  match c, s with
  | Some c, Some s => (c * w_mba + s * w_cf)%Q
  | Some c, None => (c * w_mba)%Q
  | None, Some s => (s * w_cf)%Q
  | None, None => 0%Q
  end.

(** The entry that the market-basket loop writes for a candidate, and
    the entry that the collaborative-filtering loop leaves for a
    candidate when the dictionary held [old] under its product. *)
Definition mba_entry (w : Q) (rec : MBARec.t) : HybridRec.t :=
  {| HybridRec.product := MBARec.product rec;
     HybridRec.score := (MBARec.confidence rec * w)%Q;
     HybridRec.mba_confidence := Some (MBARec.confidence rec);
     HybridRec.cf_similarity := None;
     HybridRec.explanation := MBARec.explanation rec |}.

Definition cf_entry (w : Q) (rec : SimRec.t) (old : option HybridRec.t)
  : HybridRec.t :=
  match old with
  | Some entry =>
      {| HybridRec.product := HybridRec.product entry;
         HybridRec.score :=
           (HybridRec.score entry + SimRec.similarity rec * w)%Q;
         HybridRec.mba_confidence := HybridRec.mba_confidence entry;
         HybridRec.cf_similarity := Some (SimRec.similarity rec);
         HybridRec.explanation := HybridRec.explanation entry |}
  | None =>
      {| HybridRec.product := SimRec.product rec;
         HybridRec.score := (SimRec.similarity rec * w)%Q;
         HybridRec.mba_confidence := None;
         HybridRec.cf_similarity := Some (SimRec.similarity rec);
         HybridRec.explanation := SimRec.explanation rec |}
  end.


(** Stand-ins for the two scikit-learn routines, used only to run the
    model on concrete data: the exact factorization M = I * M (a product's
    latent vector is its column of purchase counts), and the plain dot
    product as similarity. *)
Definition identity_svd (k : nat) (M : list (list Q))
  : list (list Q) * list (list Q) :=
  let n := length M in
  ((λ i, (λ j, if decide (i = j) then 1%Q else 0%Q) <$> seq 0 n) <$> seq 0 n, M).

Definition dot_similarity (u v : list Q) : Q :=
  match dot u v with Ok x => x | Raise _ => 0%Q end.

End Contract.

(** ** A small dataset to run the engine on *)

Module Examples.
Import DataPrep Recommenders Insights Contract.

Definition visit (c : Z) (p : string) (d : Z) : RawRow :=
  {| raw_customer := c; raw_product := p;
     raw_date := {| year := 2023; month := 6; day := d |} |}.

(** Four visits: three products, two products three times. *)
Definition example_log : list RawRow :=
  [visit 2001 "Hoodie" 1; visit 2001 "Blue Jeans" 1; visit 2001 "Sneakers" 1;
   visit 2002 "Blue Jeans" 1; visit 2002 "Sneakers" 1;
   visit 2003 "Blue Jeans" 2; visit 2003 "Hoodie" 2;
   visit 2004 "Hoodie" 3; visit 2004 "Blue Jeans" 3].

Definition example_frame : DataFrame := load_data example_log.

Definition example_store : store := {[ 1%positive := example_frame ]}.

Definition example_preprocessor : DataPreprocessor :=
  {| data_path := "sample_data/stylehive_transactions.csv";
     dp_df := Some 1%positive |}.

Definition example_mba : MarketBasketAnalyzer :=
  fit (MarketBasketAnalyzer_init (1 # 10) (1 # 10)) (get_basket_data example_frame).

Definition example_cf : CollaborativeFilteringRecommender :=
  cf_fit identity_svd (CollaborativeFilteringRecommender_init 10)
    (get_transaction_matrix example_frame).

Definition example_hybrid : HybridRecommender :=
  hybrid_fit identity_svd (HybridRecommender_init (6 # 10) (4 # 10))
    (get_basket_data example_frame) (get_transaction_matrix example_frame).

Definition example_rules : list Rule := default [] (rules example_mba).

Definition example_hybrid_rules : list Rule :=
  default [] (rules (mba example_hybrid)).

Definition example_insights : BusinessInsights :=
  match BusinessInsights_init example_preprocessor example_store with
  | Ok insights => insights
  | Raise _ =>
      {| dp := example_preprocessor; df := None;
         co_occurrence := {| co_index := []; co_cells := ∅ |} |}
  end.

(** A hand-made rule table that no miner produces: its first rule has the
    query product as consequent. *)
Definition overlapping_model : MarketBasketAnalyzer :=
  {| min_support := 1 # 10; min_confidence := 1 # 10;
     frequent_itemsets := Some [];
     rules :=
       Some [{| antecedents := ["Hoodie"]; consequents := ["Hoodie"];
                support := 1; confidence := 1; lift := 1 |};
             {| antecedents := ["Hoodie"]; consequents := ["Sneakers"];
                support := 1 # 2; confidence := 1 # 2; lift := 1 |}] |}.

(** A log of [n] visits of two products each. *)
Definition two_item_visits (n : nat) : list RawRow :=
  i ← seq 1 n;
  [visit (Z.of_nat i) "Blue Jeans" 1; visit (Z.of_nat i) "Sneakers" 1].

End Examples.

(** ** utils/data_prep.py, the remaining statistics *)

Module DataPrepMore.
Import DataPrep.


(** [Series.min()] and [Series.max()] on dates; [None] is [NaT]. *)
Definition dates_min (l : list date) : option date :=
  match l with
  | [] => None
  | d :: ds => Some (foldr (λ x acc, if date_ltb x acc then x else acc) d ds)
  end.

Definition dates_max (l : list date) : option date :=
  match l with
  | [] => None
  | d :: ds => Some (foldr (λ x acc, if date_ltb acc x then x else acc) d ds)
  end.




(** A row of the [customer_stats] frame of [get_customer_insights]. *)
Record CustomerInsightRow : Type := {
  ci_customer : Z;
  ci_TotalPurchases : Z;
  ci_FirstPurchase : option date;
  ci_LastPurchase : option date;
  ci_ActiveDays : Z;
  ci_AvgPurchasesPerDay : Q
}.

Record CustomerInsights : Type := {
  total_customers : nat;
  avg_purchases_per_customer : Q;
  avg_basket_size : Q;
  most_active_customer : Z;
  customer_stats : list CustomerInsightRow
}.

(** [Series.idxmax()]: the label of the first largest value; an empty
    series raises [ValueError]. *)
Definition idxmax (l : list (Z * Z)) : result Z :=
  match l with
  | [] => Raise ValueError
  | e :: rest =>
      Ok (fold_left (λ best x, if decide (best.2 < x.2) then x else best) rest e).1
  end.

(** [Series.mean()] of integers (0/0 where pandas has NaN). *)
Definition mean (l : list Z) : Q :=
  let total := foldr Z.add 0 l in
  (inject_Z total / inject_Z (Z.of_nat (length l)))%Q.

Definition customer_insight_rows (df : DataFrame) : list CustomerInsightRow :=
  (λ g, let total := Z.of_nat (length g.2) in
        let days := Z.of_nat (nunique g.2) in
        {| ci_customer := g.1;
           ci_TotalPurchases := total;
           ci_FirstPurchase := dates_min g.2;
           ci_LastPurchase := dates_max g.2;
           ci_ActiveDays := days;
           ci_AvgPurchasesPerDay := (inject_Z total / inject_Z days)%Q |})
  <$> groupby Z.ltb CustomerID Date (rows df).

Definition get_customer_insights (df : DataFrame) : result CustomerInsights :=
  let customer_stats := customer_insight_rows df in
  let totals := ci_TotalPurchases <$> customer_stats in
  most_active ←
    idxmax ((λ r, (ci_customer r, ci_TotalPurchases r)) <$> customer_stats);
  Ok {| total_customers := length customer_stats;
        avg_purchases_per_customer := mean totals;
        avg_basket_size := mean totals;
        most_active_customer := most_active;
        customer_stats := customer_stats |}.

(** [prepare_for_ml]: the matrix and its column labels. *)
Definition prepare_for_ml (df : DataFrame) : Matrix * list string :=
  let transaction_matrix := get_transaction_matrix df in
  (transaction_matrix, m_columns transaction_matrix).

End DataPrepMore.

(** ** utils/insights.py, the remaining queries *)

Module InsightsMore.
Import DataPrep DataPrepMore Insights.


Record Edge : Type := {
  source : string;
  target : string;
  weight : Z;
  strength : Q
}.

Record AffinityNetwork : Type := {
  nodes : list string;
  edges : list Edge
}.

(** [get_product_affinity_network]; [self.df] is read when an edge
    qualifies and once more for the nodes.  (A product without purchases
    would give an infinite strength; it is 0 here.) *)
Definition get_product_affinity_network (self : BusinessInsights) (σ : store)
  : result AffinityNetwork :=
  let labels := co_index (co_occurrence self) in
  network_data ←
    for_each
      (λ network_data '(product1, product2),
         if decide (product1 ≠ product2) then
           match co_cells (co_occurrence self) !! (product1, product2) with
           | None => Raise KeyError
           | Some co_purchases =>
               if decide (5 < co_purchases) then
                 frame ← deref σ (df self);
                 Ok (network_data
                     ++ [{| source := product1;
                            target := product2;
                            weight := co_purchases;
                            strength :=
                              (inject_Z co_purchases
                               / inject_Z (total_purchases frame product1))%Q |}])
               else Ok network_data
           end
         else Ok network_data)
      (product1 ← labels; product2 ← labels; [(product1, product2)]) [];
  frame ← deref σ (df self);
  Ok {| nodes := unique (Product <$> rows frame);
        edges := take 20 (sort_desc (λ x y, Qltb (strength x) (strength y))
                            network_data) |}.

End InsightsMore.

(** ** utils/data_generator.py, the calendar part *)

Module Generator.
Import DataPrep.

(** [StyleHiveDataGenerator.get_season] *)
Definition get_season (d : date) : string :=
  if bool_decide (month d ∈ [3; 4; 5]) then "spring"
  else if bool_decide (month d ∈ [6; 7; 8]) then "summer"
  else if bool_decide (month d ∈ [9; 10; 11]) then "fall"
  else "winter".

End Generator.

(** ** Further conditions and counting functions *)

Module ContractMore.
Import DataPrep Recommenders Insights.

(** A fitted collaborative-filtering model whose factors fit its matrix:
    one row of purchase counts and one latent vector per customer, one
    latent vector per product column, all latent vectors of one length. *)
Definition cf_user_ready (self : CollaborativeFilteringRecommender) : Prop :=
  match user_item_matrix self, user_factors self, item_factors self,
        products self with
  | Some uim, Some uf, Some itf, Some ps =>
      length (m_values uim) = length (m_index uim)
      ∧ length uf = length (m_index uim)
      ∧ Forall (λ u, Forall (λ v, length v = length u) itf) uf
      ∧ NoDup ps
  | _, _, _, _ => False
  end.

#[global] Instance cf_user_ready_dec self : Decision (cf_user_ready self).
Proof.
  unfold cf_user_ready.
  destruct (user_item_matrix self), (user_factors self), (item_factors self),
    (products self); apply _.
Defined.

(** The shapes that [TruncatedSVD] returns for a matrix: [fit_transform]
    gives one row per row of the matrix, each with one entry per row of
    [components_]. *)
Definition svd_shaped
    (TruncatedSVD : nat → list (list Q) → list (list Q) * list (list Q))
    (k : nat) (M : list (list Q)) : Prop :=
  length (TruncatedSVD k M).1 = length M
  ∧ Forall (λ u, length u = length (TruncatedSVD k M).2) (TruncatedSVD k M).1.

#[global] Instance svd_shaped_dec TruncatedSVD k M :
  Decision (svd_shaped TruncatedSVD k M).
Proof. unfold svd_shaped. apply _. Defined.

(** Number of baskets of more than one row that hold both products. *)
Definition baskets_with_both (A B : string) (baskets : list (list string)) : Z :=
  Z.of_nat (length (filter (λ b, (1 < length b)%nat ∧ A ∈ b ∧ B ∈ b) baskets)).

(** Number of elements of [l] equal to [x]. *)
Definition count_of (x : string) (l : list string) : nat :=
  length (filter (λ y, y = x) l).

(** The first letter in upper case, as the season names of the loader are
    written. *)
Definition capitalize (s : string) : string :=
  match s with
  | EmptyString => EmptyString
  | String c rest =>
      let n := Ascii.nat_of_ascii c in
      String (if decide (97 ≤ n ≤ 122)%nat then Ascii.ascii_of_nat (n - 32) else c)
             rest
  end.

(** Number of rows of customer [c]. *)
Definition purchases_of (df : DataFrame) (c : Z) : Z :=
  Z.of_nat (length (filter (λ r, CustomerID r = c) (rows df))).

End ContractMore.

(** ** More of the example dataset *)

Module ExamplesMore.
Import DataPrep Insights Examples.

Definition example_segments : CustomerSegments :=
  match get_customer_segments example_insights example_store with
  | Ok segments => segments
  | Raise _ => {| segment_distribution := ∅; customer_stats := [] |}
  end.

Definition example_segment_row : SegmentedCustomer :=
  hd {| customer := 0;
        stats := {| TotalPurchases := 0; ActiveDays := 0;
                    AvgPurchasesPerDay := 0 |};
        Segment := "" |}
     (customer_stats example_segments).

End ExamplesMore.

(* ==== PROPERTIES ==== *)

Local Set Warnings "-clear-no-such-hyp".

(** ** Facts about the prelude *)

Lemma bind_Ok {A B : Type} (a : A) (f : A → result B) : Ok a ≫= f = f a.
Proof. reflexivity. Qed.

Lemma bind_Raise {A B : Type} (e : exn) (f : A → result B) :
  Raise e ≫= f = Raise e.
Proof. reflexivity. Qed.

Section prelude_facts.
Context {A : Type}.
Implicit Types (l : list A) (ltb : A → A → bool).

Lemma insert_asc_perm ltb x l : insert_asc ltb x l ≡ₚ x :: l.
Proof.
  induction l as [|y l IH]; simpl; [done|].
  destruct (ltb y x); [|done]. rewrite IH. apply perm_swap.
Qed.

Lemma sort_asc_perm ltb l : sort_asc ltb l ≡ₚ l.
Proof.
  induction l as [|x l IH]; simpl; [done|].
  by rewrite insert_asc_perm, IH.
Qed.

Lemma insert_desc_perm ltb x l : insert_desc ltb x l ≡ₚ x :: l.
Proof.
  induction l as [|y l IH]; simpl; [done|].
  destruct (ltb x y); [|done]. rewrite IH. apply perm_swap.
Qed.

Lemma sort_desc_perm ltb l : sort_desc ltb l ≡ₚ l.
Proof.
  induction l as [|x l IH]; simpl; [done|].
  by rewrite insert_desc_perm, IH.
Qed.

Lemma elem_of_take_l n l x : x ∈ take n l → x ∈ l.
Proof. apply subseteq_take. Qed.

Lemma sort_desc_length ltb l : length (sort_desc ltb l) = length l.
Proof. by rewrite sort_desc_perm. Qed.

Lemma elem_of_sort_desc ltb l x : x ∈ sort_desc ltb l ↔ x ∈ l.
Proof. by rewrite sort_desc_perm. Qed.

Lemma elem_of_sort_asc ltb l x : x ∈ sort_asc ltb l ↔ x ∈ l.
Proof. by rewrite sort_asc_perm. Qed.

(** The result of a descending sort is descending: no element is
    strictly below a later one, for an order whose "not below" is
    transitive. *)
Lemma insert_desc_sorted ltb x l :
  (∀ a b c, ltb a b = false → ltb b c = false → ltb a c = false) →
  (∀ a b, ltb a b = true → ltb b a = false) →
  StronglySorted (λ a b, ltb a b = false) l →
  StronglySorted (λ a b, ltb a b = false) (insert_desc ltb x l).
Proof.
  intros Htrans Hasym. induction 1 as [|y l Hl IH Hy]; simpl.
  - repeat constructor.
  - destruct (ltb x y) eqn:Hxy.
    + constructor; [done|]. rewrite insert_desc_perm.
      constructor; [by apply Hasym | done].
    + constructor; [by constructor|].
      constructor; [done|]. eapply Forall_impl; [exact Hy|].
      intros z Hz. by eapply Htrans.
Qed.

Lemma sort_desc_sorted ltb l :
  (∀ a b c, ltb a b = false → ltb b c = false → ltb a c = false) →
  (∀ a b, ltb a b = true → ltb b a = false) →
  StronglySorted (λ a b, ltb a b = false) (sort_desc ltb l).
Proof.
  intros Htrans Hasym. induction l as [|x l IH]; simpl; [constructor|].
  by apply insert_desc_sorted.
Qed.

Context `{EqDecision A}.

Lemma unique_acc l (seen : list A) :
  NoDup seen →
  let u := fold_left (λ seen x, if decide (x ∈ seen) then seen else seen ++ [x])
             l seen in
  NoDup u ∧ ∀ x, x ∈ u ↔ x ∈ seen ∨ x ∈ l.
Proof.
  revert seen. induction l as [|y l IH]; intros seen Hnd; simpl.
  - split; [done|]. intros x. rewrite elem_of_nil. tauto.
  - destruct (decide (y ∈ seen)) as [Hy|Hy].
    + destruct (IH seen Hnd) as [H1 H2]. split; [done|].
      intros x. rewrite H2, elem_of_cons. naive_solver.
    + destruct (IH (seen ++ [y])) as [H1 H2].
      { apply NoDup_app. split_and!; [done| |apply NoDup_singleton].
        intros x Hx ->%list_elem_of_singleton. done. }
      split; [done|]. intros x.
      rewrite H2, elem_of_app, list_elem_of_singleton, elem_of_cons. tauto.
Qed.

Lemma NoDup_unique l : NoDup (unique l).
Proof. apply (unique_acc l []). constructor. Qed.

Lemma elem_of_unique l x : x ∈ unique l ↔ x ∈ l.
Proof.
  unfold unique. rewrite (proj2 (unique_acc l [] (NoDup_nil_2))).
  rewrite elem_of_nil. tauto.
Qed.

End prelude_facts.

(** ** Facts about [groupby] *)

Section groupby_facts.
Import DataPrep.
Context {A K V : Type} `{EqDecision K} (ltb : K → K → bool).
Implicit Types (groups : list (K * list V)).

Lemma group_insert_values groups k v vs x :
  vs ∈ (group_insert ltb k v groups).*2 → x ∈ vs →
  x = v ∨ ∃ vs0, vs0 ∈ groups.*2 ∧ x ∈ vs0.
Proof.
  induction groups as [|[k' vs'] groups IH]; simpl.
  - intros ->%list_elem_of_singleton ->%list_elem_of_singleton. by left.
  - destruct (decide (k = k')) as [->|Hne]; [|destruct (ltb k k')]; simpl.
    + intros [->|Hin]%elem_of_cons Hx.
      * apply elem_of_app in Hx as [Hx | ->%list_elem_of_singleton]; [|by left].
        right. exists vs'. split; [left|done].
      * right. exists vs. split; [by right|done].
    + intros [->|Hin]%elem_of_cons Hx.
      * apply list_elem_of_singleton in Hx. by left.
      * right. exists vs. split; [done|done].
    + intros [->|Hin]%elem_of_cons Hx.
      * right. exists vs'. split; [left|done].
      * destruct (IH Hin Hx) as [?|(vs0 & ? & ?)]; [by left|].
        right. exists vs0. split; [by right|done].
Qed.

Lemma groupby_values (key : A → K) (val : A → V) (l : list A) vs x :
  vs ∈ (groupby ltb key val l).*2 → x ∈ vs → ∃ r, r ∈ l ∧ val r = x.
Proof.
  unfold groupby.
  assert (∀ acc,
    vs ∈ (fold_left (λ groups r, group_insert ltb (key r) (val r) groups) l acc).*2 →
    x ∈ vs →
    (∃ r, r ∈ l ∧ val r = x) ∨ (∃ vs0, vs0 ∈ acc.*2 ∧ x ∈ vs0)) as Hgen.
  { induction l as [|r l IH]; intros acc; simpl.
    - intros. right. by exists vs.
    - intros Hvs Hx. destruct (IH _ Hvs Hx) as [(r' & ? & ?)|(vs0 & Hvs0 & Hx0)].
      + left. exists r'. split; [by right|done].
      + destruct (group_insert_values _ _ _ _ _ Hvs0 Hx0) as [->|?].
        * left. exists r. split; [left|done].
        * by right. }
  intros Hvs Hx. destruct (Hgen [] Hvs Hx) as [?|(vs0 & Hvs0 & _)]; [done|].
  by apply elem_of_nil in Hvs0.
Qed.

End groupby_facts.

(** [groupby] under a strict total order on the keys: one group per key,
    holding the values of that key's rows in frame order. *)

Section groupby_order_facts.
Import DataPrep Counting.
Context {A K V : Type} `{EqDecision K} (ltb : K → K → bool).
Hypothesis ltb_irrefl : ∀ a, ltb a a = false.
Hypothesis ltb_trans : ∀ a b c, ltb a b = true → ltb b c = true → ltb a c = true.
Hypothesis ltb_total : ∀ a b, a ≠ b → ltb a b = false → ltb b a = true.
Implicit Types (groups : list (K * list V)).

Abbreviation ascending := (ascending_keys ltb).

Lemma group_insert_keys groups k v k' :
  k' ∈ (group_insert ltb k v groups).*1 ↔ k' = k ∨ k' ∈ groups.*1.
Proof.
  induction groups as [|[k0 vs0] groups IH].
  - simpl. rewrite list_elem_of_singleton, elem_of_nil. tauto.
  - cbn [group_insert].
    destruct (decide (k = k0)) as [->|Hne]; [|destruct (ltb k k0)].
    + rewrite !fmap_cons, !elem_of_cons. simpl. tauto.
    + rewrite !fmap_cons, !elem_of_cons. simpl. tauto.
    + rewrite !fmap_cons, !elem_of_cons, IH. simpl. tauto.
Qed.

Lemma group_insert_ascending groups k v :
  ascending groups → ascending (group_insert ltb k v groups).
Proof.
  unfold ascending_keys. induction 1 as [|[k0 vs0] groups Hs IH Hall]; simpl.
  - repeat constructor.
  - destruct (decide (k = k0)) as [->|Hne]; [|destruct (ltb k k0) eqn:Hlt].
    + by constructor.
    + constructor; [by constructor|]. constructor; [done|].
      eapply Forall_impl; [exact Hall|]. intros g Hg. simpl in *.
      by eapply ltb_trans.
    + constructor; [done|]. apply Forall_forall. intros g Hg.
      assert (g.1 ∈ (group_insert ltb k v groups).*1) as Hk
        by by apply list_elem_of_fmap_2.
      apply group_insert_keys in Hk as [->|Hk]; simpl.
      * apply ltb_total; [done|done].
      * apply list_elem_of_fmap in Hk as (g' & -> & Hg').
        rewrite Forall_forall in Hall. by apply Hall.
Qed.

Lemma group_of_not_key groups k : k ∉ groups.*1 → group_of k groups = [].
Proof.
  induction groups as [|[k0 vs0] groups IH]; simpl; [done|].
  intros [? ?]%not_elem_of_cons. rewrite decide_False by done. by apply IH.
Qed.

Lemma ascending_head_not_key k0 vs0 groups k :
  ascending ((k0, vs0) :: groups) → ltb k k0 = true → k ∉ groups.*1.
Proof.
  intros [Hall _]%StronglySorted_cons Hlt Hin.
  apply list_elem_of_fmap in Hin as (g & -> & Hg).
  rewrite Forall_forall in Hall. specialize (Hall g Hg). simpl in Hall.
  pose proof (ltb_trans _ _ _ Hlt Hall) as Hkk. by rewrite ltb_irrefl in Hkk.
Qed.

Lemma group_insert_group_of groups k v k' :
  ascending groups →
  group_of k' (group_insert ltb k v groups)
  = group_of k' groups ++ (if decide (k' = k) then [v] else []).
Proof.
  induction groups as [|[k0 vs0] groups IH]; intros Hasc; simpl.
  - by destruct (decide (k' = k)).
  - destruct (decide (k = k0)) as [->|Hne]; [|destruct (ltb k k0) eqn:Hlt];
      simpl.
    + destruct (decide (k' = k0)); [done|]. by rewrite app_nil_r.
    + destruct (decide (k' = k)) as [->|?]; [|by rewrite app_nil_r].
      rewrite decide_False by done.
      rewrite group_of_not_key; [done|].
      by eapply ascending_head_not_key.
    + destruct (decide (k' = k0)) as [->|?].
      * rewrite decide_False by done. by rewrite app_nil_r.
      * apply IH. by apply StronglySorted_cons in Hasc as [_ ?].
Qed.

Lemma ascending_group_of groups k vs :
  ascending groups → (k, vs) ∈ groups → group_of k groups = vs.
Proof.
  induction groups as [|[k0 vs0] groups IH]; intros Hasc; simpl.
  - by intros ?%elem_of_nil.
  - intros [[= -> ->]|Hin]%elem_of_cons.
    + by rewrite decide_True.
    + apply StronglySorted_cons in Hasc as [Hall Hasc].
      rewrite decide_False; [by apply IH|]. intros ->.
      rewrite Forall_forall in Hall. specialize (Hall _ Hin). simpl in Hall.
      by rewrite ltb_irrefl in Hall.
Qed.

Lemma ascending_NoDup groups : ascending groups → NoDup groups.*1.
Proof.
  induction 1 as [|[k0 vs0] groups Hs IH Hall]; simpl; constructor; [|done].
  intros Hin. apply list_elem_of_fmap in Hin as (g & Hk & Hg).
  rewrite Forall_forall in Hall. specialize (Hall g Hg). simpl in *.
  rewrite <- Hk in Hall. by rewrite ltb_irrefl in Hall.
Qed.

(** What [groupby] returns. *)
Lemma groupby_spec (key : A → K) (val : A → V) (l : list A) :
  let groups := groupby ltb key val l in
  ascending groups
  ∧ (∀ k, k ∈ groups.*1 ↔ k ∈ key <$> l)
  ∧ (∀ k, group_of k groups = val <$> filter (λ r, key r = k) l).
Proof.
  unfold groupby.
  assert (∀ acc done_,
    ascending acc →
    (∀ k, k ∈ acc.*1 ↔ k ∈ key <$> done_) →
    (∀ k, group_of k acc = val <$> filter (λ r, key r = k) done_) →
    let groups :=
      fold_left (λ groups r, group_insert ltb (key r) (val r) groups) l acc in
    ascending groups
    ∧ (∀ k, k ∈ groups.*1 ↔ k ∈ key <$> (done_ ++ l))
    ∧ (∀ k, group_of k groups = val <$> filter (λ r, key r = k) (done_ ++ l)))
    as Hgen.
  { induction l as [|r l IH]; intros acc done_ Hasc Hkeys Hgot; simpl.
    - by rewrite app_nil_r.
    - replace (done_ ++ r :: l) with ((done_ ++ [r]) ++ l)
        by by rewrite <- app_assoc.
      apply IH.
      + by apply group_insert_ascending.
      + intros k. rewrite group_insert_keys, Hkeys, fmap_app, elem_of_app.
        simpl. rewrite list_elem_of_singleton. tauto.
      + intros k. rewrite group_insert_group_of, Hgot, filter_app, fmap_app
          by done.
        f_equal. rewrite filter_cons, filter_nil.
        destruct (decide (k = key r)) as [->|Hne].
        * by rewrite decide_True.
        * rewrite decide_False; [done|]. by intros <-. }
  apply (Hgen [] []).
  - constructor.
  - intros k. simpl. by rewrite !elem_of_nil.
  - done.
Qed.

Lemma groupby_group (key : A → K) (val : A → V) (l : list A) k vs :
  (k, vs) ∈ groupby ltb key val l →
  vs = val <$> filter (λ r, key r = k) l.
Proof.
  intros Hin. destruct (groupby_spec key val l) as (Hasc & _ & Hgot).
  rewrite <- Hgot. symmetry. by apply ascending_group_of.
Qed.

End groupby_order_facts.

Lemma Z_ltb_order :
  (∀ a, Z.ltb a a = false)
  ∧ (∀ a b c, Z.ltb a b = true → Z.ltb b c = true → Z.ltb a c = true)
  ∧ (∀ a b, a ≠ b → Z.ltb a b = false → Z.ltb b a = true).
Proof. split_and!; intros; lia. Qed.



Section co_occurrence_facts.
Import DataPrep Counting.
Implicit Types (cells : gmap (string * string) Z) (basket : list string).

Lemma adds_refl cells δ : (∀ k, δ k = 0) → adds δ cells cells.
Proof.
  intros Hδ k. rewrite Hδ. destruct (cells !! k) as [c|]; simpl; [|done].
  f_equal. lia.
Qed.

Lemma adds_trans δ1 δ2 δ c1 c2 c3 :
  adds δ1 c1 c2 → adds δ2 c2 c3 → (∀ k, δ k = δ1 k + δ2 k) →
  adds δ c1 c3.
Proof.
  intros H1 H2 Hδ k. rewrite H2, H1, Hδ.
  destruct (c1 !! k) as [c|]; simpl; [|done]. f_equal. lia.
Qed.

Lemma adds_is_Some δ c1 c2 k : adds δ c1 c2 → is_Some (c1 !! k) → is_Some (c2 !! k).
Proof. intros H [c Hc]. rewrite H, Hc. by eexists. Qed.

Lemma loc_incr_adds p1 p2 cells :
  is_Some (cells !! (p1, p2)) →
  ∃ cells', loc_incr p1 p2 cells = Ok cells'
            ∧ adds (λ k, hit (bool_decide ((p1, p2) = k))) cells cells'.
Proof.
  intros [c Hc]. unfold loc_incr. rewrite Hc. eexists; split; [done|].
  intros k. unfold hit. case_bool_decide as Hk.
  - subst k. by rewrite lookup_insert_eq, Hc.
  - rewrite lookup_insert_ne by done.
    destruct (cells !! k); simpl; [f_equal; lia|done].
Qed.

(** A loop whose every iteration adds to the cells adds the sum. *)
Lemma for_each_adds {A : Type}
    (body : gmap (string * string) Z → A → result (gmap (string * string) Z))
    (δ : A → string * string → Z) (keys : list (string * string)) (l : list A) :
  (∀ x c, x ∈ l → (∀ k, k ∈ keys → is_Some (c !! k)) →
          ∃ c', body c x = Ok c' ∧ adds (δ x) c c') →
  ∀ c, (∀ k, k ∈ keys → is_Some (c !! k)) →
       ∃ c', for_each body l c = Ok c'
             ∧ adds (λ k, foldr (λ x acc, δ x k + acc) 0 l) c c'.
Proof.
  induction l as [|x l IH]; intros Hbody c Hc; simpl.
  - eexists; split; [done|]. by apply adds_refl.
  - destruct (Hbody x c) as (c1 & E1 & H1); [left|done|].
    destruct (IH (λ y c' Hy, Hbody y c' (list_elem_of_further _ _ _ Hy)) c1)
      as (c2 & E2 & H2).
    { intros k Hk. eapply adds_is_Some; eauto. }
    exists c2. rewrite E1. simpl. split; [done|].
    eapply adds_trans; eauto.
Qed.

Lemma elem_of_enumerate_from {A : Type} (l : list A) k0 j x :
  (j, x) ∈ enumerate_from k0 l → (k0 ≤ j)%nat ∧ l !! (j - k0)%nat = Some x.
Proof.
  revert k0. induction l as [|y l IH]; intros k0; simpl.
  - by intros ?%elem_of_nil.
  - intros [[= -> ->]|Hin]%elem_of_cons.
    + split; [lia|]. by replace (k0 - k0)%nat with 0%nat by lia.
    + destruct (IH _ Hin) as [Hle Hl]. split; [lia|].
      by replace (j - k0)%nat with (S (j - S k0)) by lia.
Qed.

Lemma elem_of_enumerate {A : Type} (l : list A) j x :
  (j, x) ∈ enumerate l → l !! j = Some x.
Proof.
  intros [_ H]%elem_of_enumerate_from. by rewrite Nat.sub_0_r in H.
Qed.

Section per_basket.
Context (keys : list (string * string)) (basket : list string).
Hypothesis keys_basket :
  ∀ p1 p2, p1 ∈ basket → p2 ∈ basket → (p1, p2) ∈ keys.

Lemma co_inner_adds i p1 c :
  p1 ∈ basket → (∀ k, k ∈ keys → is_Some (c !! k)) →
  ∃ c', co_inner i p1 basket c = Ok c'
        ∧ adds (inner_hits i p1 (enumerate basket)) c c'.
Proof.
  intros Hp1 Hc. unfold co_inner.
  apply (for_each_adds _
           (λ e k, hit (bool_decide (i ≠ e.1 ∧ (p1, e.2) = k))) keys);
    [|done].
  intros [j p2] c0 Hin Hc0. simpl.
  apply elem_of_enumerate, list_elem_of_lookup_2 in Hin.
  destruct (decide (i ≠ j)) as [Hij|Hij].
  - destruct (loc_incr_adds p1 p2 c0) as (c' & E & Hadd); [by auto|].
    exists c'. split; [done|]. intros k. rewrite Hadd. unfold hit. simpl.
    repeat case_bool_decide; try done; tauto.
  - eexists; split; [done|]. apply adds_refl. intros k. unfold hit. simpl.
    case_bool_decide; [tauto|done].
Qed.

Lemma co_basket_adds c :
  (∀ k, k ∈ keys → is_Some (c !! k)) →
  ∃ c', co_basket c basket = Ok c' ∧ adds (basket_hits basket) c c'.
Proof.
  intros Hc. unfold co_basket, basket_hits.
  destruct (decide (1 < length basket)%nat).
  - apply (for_each_adds _
             (λ e k, inner_hits e.1 e.2 (enumerate basket) k) keys); [|done].
    intros [i p1] c0 Hin Hc0. simpl.
    apply co_inner_adds; [|done].
    by apply elem_of_enumerate, list_elem_of_lookup_2 in Hin.
  - eexists; split; [done|]. by apply adds_refl.
Qed.
End per_basket.

Lemma co_baskets_adds (keys : list (string * string)) baskets c :
  (∀ b p1 p2, b ∈ baskets → p1 ∈ b → p2 ∈ b → (p1, p2) ∈ keys) →
  (∀ k, k ∈ keys → is_Some (c !! k)) →
  ∃ c', for_each co_basket baskets c = Ok c' ∧ adds (total_hits baskets) c c'.
Proof.
  intros Hkeys Hc.
  apply (for_each_adds _ (λ b k, basket_hits b k) keys); [|done].
  intros b c0 Hb Hc0. apply (co_basket_adds keys b); [|done].
  intros p1 p2. by apply Hkeys.
Qed.

(** *** The counts in closed form *)

Lemma occ_cons A x l : occ A (x :: l) = hit (bool_decide (x = A)) + occ A l.
Proof.
  unfold occ, hit. rewrite filter_cons.
  case_bool_decide; case_decide; simpl; try done; lia.
Qed.

Lemma occ_nonneg A l : 0 ≤ occ A l.
Proof. unfold occ. lia. Qed.

Lemma occ_not_elem_of A l : A ∉ l → occ A l = 0.
Proof.
  induction l as [|x l IH]; [done|]. intros Hin. rewrite occ_cons.
  apply not_elem_of_cons in Hin as [Hne Hin]. rewrite IH by done.
  unfold hit. by rewrite bool_decide_eq_false_2.
Qed.

Lemma occ_NoDup A l : NoDup l → occ A l ≤ 1.
Proof.
  induction 1 as [|x l Hx _ IH]; [done|]. rewrite occ_cons. unfold hit.
  case_bool_decide as Hxa; [|lia]. subst x.
  rewrite occ_not_elem_of by done. lia.
Qed.

Lemma inner_hits_closed l k0 i p1 A B :
  inner_hits i p1 (enumerate_from k0 l) (A, B)
  = if decide (p1 = A)
    then occ B l
         - hit (bool_decide ((k0 ≤ i)%nat ∧ l !! (i - k0)%nat = Some B))
    else 0.
Proof.
  revert k0. induction l as [|x l IH]; intros k0; simpl.
  - unfold hit. case_decide; [|done]. case_bool_decide; naive_solver.
  - fold (inner_hits i p1 (enumerate_from (S k0) l) (A, B)).
    rewrite IH, occ_cons. unfold hit.
    destruct (decide (p1 = A)) as [->|Hne].
    + destruct (decide (i = k0)) as [->|Hik].
      * replace (k0 - k0)%nat with 0%nat by lia. simpl.
        repeat case_bool_decide; try lia; naive_solver lia.
      * destruct (decide (k0 ≤ i)%nat) as [Hle|Hgt].
        -- replace (i - k0)%nat with (S (i - S k0)) by lia. simpl.
           repeat case_bool_decide; try lia; naive_solver lia.
        -- repeat case_bool_decide; try lia; naive_solver lia.
    + case_bool_decide; [naive_solver|lia].
Qed.

Lemma outer_hits_closed basket l k0 A B :
  (∀ j x, l !! j = Some x → basket !! (k0 + j)%nat = Some x) →
  outer_hits basket (enumerate_from k0 l) (A, B)
  = occ A l * occ B basket - (if decide (A = B) then occ A l else 0).
Proof.
  revert k0. induction l as [|x l IH]; intros k0 Hl; simpl.
  - unfold occ. simpl. case_decide; lia.
  - fold (outer_hits basket (enumerate_from (S k0) l) (A, B)).
    rewrite IH.
    2:{ intros j y Hj. replace (S k0 + j)%nat with (k0 + S j)%nat by lia.
        by apply Hl. }
    unfold enumerate. rewrite inner_hits_closed, occ_cons.
    pose proof (Hl 0%nat x eq_refl) as Hx.
    rewrite Nat.add_0_r in Hx. rewrite Nat.sub_0_r, Hx. unfold hit.
    repeat (case_bool_decide || case_decide); simplify_eq; try lia;
      naive_solver lia.
Qed.

Lemma basket_hits_closed basket A B :
  basket_hits basket (A, B)
  = if decide (1 < length basket)%nat
    then occ A basket * occ B basket - (if decide (A = B) then occ A basket else 0)
    else 0.
Proof.
  unfold basket_hits. case_decide; [|done].
  unfold enumerate. by apply outer_hits_closed.
Qed.

Lemma basket_hits_sym basket A B :
  basket_hits basket (A, B) = basket_hits basket (B, A).
Proof.
  rewrite !basket_hits_closed. case_decide; [|done].
  repeat case_decide; simplify_eq; lia.
Qed.

Lemma basket_hits_diag basket A : NoDup basket → basket_hits basket (A, A) = 0.
Proof.
  intros Hnd. rewrite basket_hits_closed. case_decide; [|done].
  rewrite decide_True by done.
  pose proof (occ_NoDup A basket Hnd). pose proof (occ_nonneg A basket). nia.
Qed.

Lemma total_hits_sym baskets A B :
  total_hits baskets (A, B) = total_hits baskets (B, A).
Proof.
  induction baskets as [|b bs IH]; simpl; [done|].
  fold (total_hits bs (A, B)). fold (total_hits bs (B, A)).
  by rewrite IH, basket_hits_sym.
Qed.

Lemma total_hits_diag baskets A :
  Forall NoDup baskets → total_hits baskets (A, A) = 0.
Proof.
  induction 1 as [|b bs Hb _ IH]; simpl; [done|].
  fold (total_hits bs (A, A)). rewrite IH, basket_hits_diag by done. lia.
Qed.

Lemma lookup_zeros products A B :
  zeros products !! (A, B)
  = if decide (A ∈ products ∧ B ∈ products) then Some 0 else None.
Proof.
  unfold zeros. rewrite lookup_gset_to_gmap.
  case_decide as H.
  - rewrite option_guard_True; [done|].
    apply elem_of_list_to_set, list_elem_of_bind. exists A. split; [|tauto].
    apply list_elem_of_bind. exists B. split; [|tauto]. by left.
  - rewrite option_guard_False; [done|]. intros Hin. apply H.
    apply elem_of_list_to_set, list_elem_of_bind in Hin as (p1 & Hin & Hp1).
    apply list_elem_of_bind in Hin as (p2 & Hin & Hp2).
    apply list_elem_of_singleton in Hin. by simplify_eq.
Qed.

(** What [co_occurrence] returns: no [KeyError] when the labels cover the
    baskets, and every cell holds its number of ordered co-purchases. *)
Lemma co_occurrence_cells products baskets :
  (∀ b p, b ∈ baskets → p ∈ b → p ∈ products) →
  ∃ M, co_occurrence products baskets = Ok M
       ∧ co_index M = products
       ∧ ∀ A B, co_cells M !! (A, B)
                = if decide (A ∈ products ∧ B ∈ products)
                  then Some (total_hits baskets (A, B)) else None.
Proof.
  intros Hcover. unfold co_occurrence.
  destruct (co_baskets_adds (p1 ← products; p2 ← products; [(p1, p2)])
              baskets (zeros products)) as (c & E & Hadd).
  - intros b p1 p2 Hb H1 H2. apply list_elem_of_bind. exists p1.
    split; [|by eauto]. apply list_elem_of_bind. exists p2.
    split; [by left|by eauto].
  - intros [A B] Hin. rewrite lookup_zeros.
    apply list_elem_of_bind in Hin as (p1 & Hin & Hp1).
    apply list_elem_of_bind in Hin as (p2 & Hin & Hp2).
    apply list_elem_of_singleton in Hin. simplify_eq.
    rewrite decide_True by done. by eexists.
  - rewrite E. simpl. eexists; split; [done|]. split; [done|]. simpl.
    intros A B. rewrite Hadd, lookup_zeros. by case_decide.
Qed.

Lemma co_occurrence_symmetric products baskets :
  (∀ b p, b ∈ baskets → p ∈ b → p ∈ products) →
  Forall NoDup baskets →
  ∃ M, co_occurrence products baskets = Ok M
       ∧ (∀ A B, co_cells M !! (A, B) = co_cells M !! (B, A))
       ∧ (∀ A, A ∈ products → co_cells M !! (A, A) = Some 0).
Proof.
  intros Hcover Hnd.
  destruct (co_occurrence_cells products baskets Hcover) as (M & E & _ & HM).
  exists M. split; [done|]. split.
  - intros A B. rewrite !HM, total_hits_sym.
    repeat case_decide; try done; tauto.
  - intros A HA. rewrite HM, decide_True by done.
    by rewrite total_hits_diag.
Qed.

Lemma baskets_of_covered df b p :
  b ∈ baskets_of df → p ∈ b → p ∈ sorted (unique (Product <$> rows df)).
Proof.
  intros Hb Hp. apply elem_of_sort_asc, elem_of_unique.
  destruct (groupby_values _ _ _ _ _ _ Hb Hp) as (r & Hr & <-).
  by apply list_elem_of_fmap_2.
Qed.

(** C1. For every dataset whose baskets hold at most one row per
    product, [get_co_occurrence_matrix] returns a matrix (no [KeyError])
    that is symmetric, count(A,B) = count(B,A) for all A and B, and whose
    diagonal entries (A,A) are all zero. *)
Theorem C1_co_occurrence_symmetric_zero_diagonal (df : DataFrame) :
  Forall NoDup (baskets_of df) →
  ∃ M, get_co_occurrence_matrix df = Ok M
       ∧ (∀ A B, co_cells M !! (A, B) = co_cells M !! (B, A))
       ∧ (∀ A, A ∈ co_index M → co_cells M !! (A, A) = Some 0).
Proof.
  intros Hnd. unfold get_co_occurrence_matrix.
  destruct (co_occurrence_cells (sorted (unique (Product <$> rows df)))
              (baskets_of df)) as (M & E & Hidx & HM).
  { intros b p. apply baskets_of_covered. }
  exists M. split; [done|]. split.
  - intros A B. rewrite !HM, total_hits_sym.
    repeat case_decide; try done; tauto.
  - intros A HA. rewrite Hidx in HA. rewrite HM, decide_True by done.
    by rewrite total_hits_diag.
Qed.

End co_occurrence_facts.

(** ** The market-basket queries *)

Section market_basket_facts.
Import DataPrep Recommenders Contract.

Lemma Qltb_lt x y : Qltb x y = true ↔ (x < y)%Q.
Proof.
  unfold Qltb. rewrite negb_true_iff, <- not_true_iff_false, Qle_bool_iff.
  split; [apply Qnot_le_lt | apply Qlt_not_le].
Qed.

Lemma Qltb_ge x y : Qltb x y = false ↔ (y <= x)%Q.
Proof. unfold Qltb. by rewrite negb_false_iff, Qle_bool_iff. Qed.

Lemma lex_ltb_false (c1 l1 c2 l2 : Q) :
  Qltb c1 c2 || (Qeq_bool c1 c2 && Qltb l1 l2) = false
  ↔ (c2 < c1 ∨ (c1 == c2 ∧ l2 <= l1))%Q.
Proof.
  rewrite orb_false_iff, andb_false_iff, !Qltb_ge.
  rewrite <- not_true_iff_false, Qeq_bool_iff.
  split.
  - intros [Hc [Hne|Hl]].
    + left. destruct (Qlt_le_dec c2 c1) as [|Hle]; [done|].
      exfalso. apply Hne. by apply Qle_antisym.
    + destruct (Qlt_le_dec c2 c1) as [|Hle]; [by left|].
      right. split; [by apply Qle_antisym|done].
  - intros [Hlt|[Heq Hl]].
    + split; [by apply Qlt_le_weak|]. left. intros Heq. lra.
    + split; [lra|by right].
Qed.


Lemma rec_ltb_false x y :
  rec_ltb x y = false
  ↔ (MBARec.confidence y < MBARec.confidence x
     ∨ (MBARec.confidence x == MBARec.confidence y
        ∧ MBARec.lift y <= MBARec.lift x))%Q.
Proof. apply lex_ltb_false. Qed.


Lemma StronglySorted_take {A : Type} (R : relation A) n (l : list A) :
  StronglySorted R l → StronglySorted R (take n l).
Proof.
  intros H. rewrite <- (take_drop n l) in H.
  by apply StronglySorted_app_1_l in H.
Qed.



Lemma filter_all {A : Type} (P : A → Prop) `{∀ x, Decision (P x)} (l : list A) :
  Forall P l → filter P l = l.
Proof.
  induction 1 as [|x l Hx _ IH]; [done|].
  by rewrite filter_cons_True, IH.
Qed.






(** *** The basket query *)



Lemma first_seen_subseteq rules seen r :
  r ∈ first_seen rules seen → r ∈ rules.
Proof.
  revert seen. induction rules as [|x rules IH]; intros seen; simpl; [done|].
  destruct (decide (recommended x ∈ seen)).
  - intros ?%IH. by right.
  - intros [->|?%IH]%elem_of_cons; [left|by right].
Qed.




End market_basket_facts.

(** ** Fitting the market-basket model *)

Section fit_facts.
Import DataPrep Recommenders Contract.

Lemma combinations_elem {A : Type} k (l s : list A) :
  s ∈ combinations k l → length s = k ∧ s `sublist_of` l.
Proof.
  revert k s. induction l as [|x l IH]; intros [|k] s; simpl.
  - intros ->%list_elem_of_singleton. by split.
  - by intros ?%elem_of_nil.
  - intros ->%list_elem_of_singleton. split; [done|]. apply sublist_nil_l.
  - intros [Hin|Hin]%elem_of_app.
    + apply list_elem_of_fmap in Hin as (s' & -> & [Hlen Hsub]%IH).
      split; [by simpl; f_equal|]. by apply sublist_skip.
    + apply IH in Hin as [Hlen Hsub]. split; [done|]. by apply sublist_cons.
Qed.

Lemma filter_none {A : Type} (P : A → Prop) `{∀ x, Decision (P x)} (l : list A) :
  Forall (λ x, ¬ P x) l → filter P l = [].
Proof.
  induction 1 as [|x l Hx _ IH]; [done|]. by rewrite filter_cons_False.
Qed.

Lemma filter_length_mono {A : Type} (P R : A → Prop)
    `{∀ x, Decision (P x)} `{∀ x, Decision (R x)} (l : list A) :
  (∀ x, P x → R x) → (length (filter P l) ≤ length (filter R l))%nat.
Proof.
  intros HPR. induction l as [|x l IH]; [done|].
  rewrite !filter_cons. destruct (decide (P x)) as [HP|HP].
  - rewrite decide_True by auto. simpl. lia.
  - destruct (decide (R x)); simpl; lia.
Qed.

(** Support can only shrink when the itemset grows. *)
Lemma support_of_anti_monotone X (S T : list string) :
  (∀ p, p ∈ S → p ∈ T) → (support_of X T <= support_of X S)%Q.
Proof.
  intros Hsub. unfold support_of, Qdiv.
  apply Qmult_le_compat_r.
  - rewrite <- Zle_Qle. apply Nat2Z.inj_le, filter_length_mono.
    intros row HT. apply Forall_forall. intros p Hp.
    rewrite Forall_forall in HT. auto.
  - apply Qinv_le_0_compat. rewrite <- (Zle_Qle 0). lia.
Qed.

(** Every row of the frame that [apriori] returns. *)
Lemma apriori_elem X ms r :
  r ∈ apriori X ms →
  (ms <= fi_support r)%Q
  ∧ fi_support r = support_of X (itemsets r)
  ∧ itemsets r ≠ []
  ∧ itemsets r `sublist_of` p_columns X.
Proof.
  unfold apriori. intros [Hms Hin]%list_elem_of_filter. split; [done|].
  apply list_elem_of_bind in Hin as (k & Hin & Hk).
  apply elem_of_seq in Hk.
  apply list_elem_of_fmap in Hin as (s & -> & [Hlen Hsub]%combinations_elem).
  simpl. split; [done|]. split; [|done].
  intros ->. simpl in Hlen. lia.
Qed.

Lemma apriori_none X ms :
  (∀ s, s ≠ [] → s ⊆ p_columns X → ¬ (ms <= support_of X s)%Q) →
  apriori X ms = [].
Proof.
  intros Hnone. unfold apriori. apply filter_none, Forall_forall.
  intros r Hin. apply list_elem_of_bind in Hin as (k & Hin & Hk).
  apply elem_of_seq in Hk.
  apply list_elem_of_fmap in Hin as (s & -> & [Hlen Hsub]%combinations_elem).
  simpl. apply Hnone.
  - intros ->. simpl in Hlen. lia.
  - by apply sublist_subseteq.
Qed.

Lemma lookup_support_Some table s q :
  lookup_support table s = Some q →
  ∃ r, r ∈ table ∧ itemsets r = s ∧ fi_support r = q.
Proof.
  unfold lookup_support. destruct (list_find _ table) as [[i r]|] eqn:Hf; [|done].
  simpl. intros [= <-]. apply list_find_Some in Hf as (Hi & Hs & _).
  exists r. split; [by eapply list_elem_of_lookup_2|done].
Qed.

(** Every rule derived from one itemset of the table. *)
Lemma rules_of_itemset_elem table mt it r :
  r ∈ rules_of_itemset table mt it →
  (mt <= confidence r)%Q
  ∧ support r = fi_support it
  ∧ antecedents r `sublist_of` itemsets it
  ∧ consequents r = filter (λ p, p ∉ antecedents r) (itemsets it)
  ∧ (∃ ra, ra ∈ table ∧ itemsets ra = antecedents r
           ∧ confidence r = (fi_support it / fi_support ra)%Q)
  ∧ (∃ rc, rc ∈ table ∧ itemsets rc = consequents r
           ∧ lift r = (confidence r / fi_support rc)%Q).
Proof.
  unfold rules_of_itemset. intros Hin.
  apply list_elem_of_bind in Hin as (idx & Hin & _).
  apply list_elem_of_bind in Hin as (A & Hin & [_ Hsub]%combinations_elem).
  destruct (lookup_support table A) as [sA|] eqn:HA;
    [|by apply elem_of_nil in Hin].
  destruct (lookup_support table (filter _ (itemsets it))) as [sC|] eqn:HC;
    [|by apply elem_of_nil in Hin].
  case_decide as Hconf; [|by apply elem_of_nil in Hin].
  apply list_elem_of_singleton in Hin as ->. simpl.
  apply lookup_support_Some in HA as (ra & ? & ? & <-).
  apply lookup_support_Some in HC as (rc & ? & ? & <-).
  repeat split; try done; by eauto.
Qed.

Lemma association_rules_elem table mt r :
  r ∈ association_rules table mt →
  ∃ it, it ∈ table ∧ r ∈ rules_of_itemset table mt it.
Proof.
  unfold association_rules. intros (it & ? & ?)%list_elem_of_bind. eauto.
Qed.

(** The two frames that [fit] stores. *)
Lemma fit_frames self baskets :
  ∃ fi rs,
    frequent_itemsets (fit self baskets) = Some fi
    ∧ rules (fit self baskets) = Some rs
    ∧ fi = apriori (transaction_encode baskets) (min_support self)
    ∧ (fi = [] → rs = [])
    ∧ (∀ r, r ∈ rs → r ∈ association_rules fi (min_confidence self)).
Proof.
  unfold fit. do 2 eexists. simpl. split; [done|]. split; [done|].
  split; [done|]. split.
  - intros ->. done.
  - intros r. case_decide; [done|]. by intros ?%elem_of_nil.
Qed.

(** The rules of a fitted model are well formed. *)
Lemma fit_rules_wf self baskets rs :
  rules (fit self baskets) = Some rs → Forall rule_wf rs.
Proof.
  destruct (fit_frames self baskets) as (fi & rs' & _ & -> & -> & _ & Hrs).
  intros [= <-]. apply Forall_forall. intros r Hr%Hrs.
  apply association_rules_elem in Hr as (it & Hit & Hr).
  apply rules_of_itemset_elem in Hr
    as (_ & _ & _ & HC & _ & (rc & Hrc & Hrc' & _)).
  split.
  - rewrite <- Hrc'. by apply apriori_elem in Hrc as (_ & _ & ? & _).
  - apply Forall_forall. intros p Hp. rewrite HC.
    by intros [? _]%list_elem_of_filter.
Qed.

(** C5. After [fit], every retained rule has confidence at least
    [min_confidence] and comes from a mined itemset (the union of its
    antecedent and consequent) whose support is at least [min_support];
    and when no itemset reaches [min_support], both frames are empty,
    [fit] being a total function that raises nothing. *)
Theorem C5_fit_respects_thresholds self baskets :
  let X := transaction_encode baskets in
  ∃ fi rs,
    frequent_itemsets (fit self baskets) = Some fi
    ∧ rules (fit self baskets) = Some rs
    ∧ (∀ it, it ∈ fi →
         (min_support self <= fi_support it)%Q
         ∧ fi_support it = support_of X (itemsets it))
    ∧ (∀ r, r ∈ rs →
         (min_confidence self <= confidence r)%Q
         ∧ ∃ it, it ∈ fi
                 ∧ (∀ p, p ∈ itemsets it
                         ↔ p ∈ antecedents r ∨ p ∈ consequents r)
                 ∧ support r = fi_support it
                 ∧ (min_support self <= fi_support it)%Q)
    ∧ ((∀ s, s ≠ [] → s ⊆ p_columns X →
             ¬ (min_support self <= support_of X s)%Q) →
       fi = [] ∧ rs = []).
Proof.
  intros X.
  destruct (fit_frames self baskets) as (fi & rs & Hfi & Hrs & -> & Hnil & Hin).
  exists (apriori X (min_support self)), rs.
  split; [done|]. split; [done|]. split; [|split].
  - intros it Hit. apply apriori_elem in Hit as (? & ? & _). by split.
  - intros r Hr%Hin.
    apply association_rules_elem in Hr as (it & Hit & Hr).
    apply rules_of_itemset_elem in Hr as (Hconf & Hsup & Hsub & HC & _).
    split; [done|]. exists it. split; [done|]. split; [|split; [done|]].
    + intros p. rewrite HC, list_elem_of_filter. split.
      * intros Hp. destruct (decide (p ∈ antecedents r)); [by left|by right].
      * intros [Hp|[_ Hp]]; [|done]. by eapply elem_of_sublist.
    + by apply apriori_elem in Hit as (? & _).
  - intros Hnone. assert (apriori X (min_support self) = []) as Hempty
      by by apply apriori_none.
    split; [done|]. by apply Hnil.
Qed.

(** C6. Among the mined itemsets of a fitted model, adding a product to
    an itemset never increases its support. *)
Theorem C6_support_anti_monotone self baskets fi a b x :
  frequent_itemsets (fit self baskets) = Some fi →
  a ∈ fi → b ∈ fi →
  (∀ p, p ∈ itemsets b ↔ p = x ∨ p ∈ itemsets a) →
  (fi_support b <= fi_support a)%Q.
Proof.
  destruct (fit_frames self baskets) as (fi' & rs & -> & _ & -> & _).
  intros [= <-] Ha Hb Hext.
  apply apriori_elem in Ha as (_ & -> & _).
  apply apriori_elem in Hb as (_ & -> & _).
  apply support_of_anti_monotone. intros p Hp. apply Hext. by right.
Qed.

End fit_facts.

(** ** The collaborative-filtering queries *)

Section collaborative_filtering_facts.
Import DataPrep Recommenders Contract.
Context (cosine_similarity : list Q → list Q → Q).

(** C2 (as the code has it). On a fitted model, a product absent from
    the fitted matrix makes [get_product_similarity] return the empty
    list, and a customer absent from it makes [get_user_recommendations]
    return the empty list: neither query raises. *)
Theorem C2_unknown_arguments_return_empty self ps uim product user_id top_n :
  products self = Some ps → user_item_matrix self = Some uim →
  product ∉ ps → user_id ∉ m_index uim →
  get_product_similarity cosine_similarity self product top_n = Ok []
  ∧ get_user_recommendations self user_id top_n = Ok [].
Proof.
  intros Hps Huim Hp Hu.
  unfold get_product_similarity, get_user_recommendations.
  rewrite Hps, Huim. simpl. by rewrite !decide_True.
Qed.

Lemma index_of_elem {A : Type} `{EqDecision A} (l : list A) (x : A) :
  x ∈ l → ∃ i, index_of l x = Ok i ∧ (i < length l)%nat.
Proof.
  intros Hin. unfold index_of.
  destruct (list_find (λ y, y = x) l) as [[i y]|] eqn:Hf.
  - exists i. split; [done|]. apply list_find_Some in Hf as (Hi & _).
    by eapply lookup_lt_Some.
  - apply list_find_None in Hf. rewrite Forall_forall in Hf.
    by destruct (Hf x Hin).
Qed.

Lemma getitem_lt {A : Type} (l : list A) i :
  (i < length l)%nat → ∃ x, getitem l i = Ok x.
Proof.
  intros Hi. unfold getitem.
  destruct (lookup_lt_is_Some_2 l i Hi) as [x ->]. by exists x.
Qed.

(** The loop that collects the similarities visits every other product
    once. *)
Lemma similarities_loop (product : string) product_vector
    (itf : list (list Q)) (l : list string) k (acc : list (string * Q)) :
  (k + length l ≤ length itf)%nat →
  ∃ out,
    for_each (λ similarities '(i, other_product),
                if decide (other_product ≠ product) then
                  other_vector ← getitem itf i;
                  Ok (similarities
                      ++ [(other_product,
                           cosine_similarity product_vector other_vector)])
                else Ok similarities)
             (enumerate_from k l) acc
    = Ok out
    ∧ out.*1 = acc.*1 ++ filter (λ p, p ≠ product) l.
Proof.
  revert k acc. induction l as [|x l IH]; intros k acc Hk; simpl.
  - exists acc. by rewrite app_nil_r.
  - simpl in Hk. destruct (decide (x ≠ product)) as [Hx|Hx].
    + destruct (getitem_lt itf k) as [v ->]; [lia|]. rewrite !bind_Ok.
      destruct (IH (S k)
                  (acc ++ [(x, cosine_similarity product_vector v)]))
        as (out & -> & Hout); [lia|].
      exists out. split; [done|].
      rewrite Hout, fmap_app, filter_cons_True, <- app_assoc by done. done.
    + rewrite bind_Ok. destruct (IH (S k) acc) as (out & -> & Hout); [lia|].
      exists out. split; [done|]. by rewrite Hout, filter_cons_False.
Qed.

(** On a fitted model the similarity query returns, with at most
    [top_n] entries and no product twice. *)
Lemma get_product_similarity_returns self product top_n :
  cf_fitted self →
  ∃ cf_recs,
    get_product_similarity cosine_similarity self product top_n = Ok cf_recs
    ∧ (length cf_recs ≤ top_n)%nat
    ∧ NoDup (SimRec.product <$> cf_recs)
    ∧ Forall (λ rec, SimRec.product rec ≠ product) cf_recs.
Proof.
  unfold cf_fitted, get_product_similarity.
  destruct (products self) as [ps|]; [|done].
  destruct (item_factors self) as [itf|]; [|done].
  intros [Hlen Hnd]. simpl.
  destruct (decide (product ∉ ps)) as [Hp|Hp].
  { exists []. repeat split; simpl; try lia; constructor. }
  apply dec_stable in Hp.
  destruct (index_of_elem ps product Hp) as (idx & -> & Hidx). rewrite bind_Ok.
  destruct (getitem_lt itf idx) as [pv ->]; [lia|]. rewrite bind_Ok.
  destruct (similarities_loop product pv itf ps 0 []) as (sims & Hs & Hsims);
    [simpl; lia|].
  unfold enumerate. rewrite Hs, bind_Ok. simpl in Hsims.
  eexists. split; [done|].
  set (sorted_sims := sort_desc _ sims).
  assert (SimRec.product <$> ((λ '(other_product, similarity),
             {| SimRec.product := other_product;
                SimRec.similarity := similarity;
                SimRec.explanation :=
                  "Similar to " +:+ product
                  +:+ " based on customer preferences" |})
            <$> take top_n sorted_sims)
          = (take top_n sorted_sims).*1) as Hprod.
  { rewrite <- list_fmap_compose. apply list_fmap_ext. by intros _ [? ?] _. }
  assert ((take top_n sorted_sims).*1 `sublist_of` sorted_sims.*1) as Hsub.
  { rewrite fmap_take. apply sublist_take. }
  assert (sorted_sims.*1 ≡ₚ filter (λ p, p ≠ product) ps) as Hperm.
  { unfold sorted_sims. by rewrite sort_desc_perm, Hsims. }
  split; [|split].
  - rewrite length_fmap, length_take. lia.
  - rewrite Hprod. eapply sublist_NoDup; [|exact Hsub].
    rewrite Hperm. by apply NoDup_filter.
  - apply Forall_fmap, Forall_forall. intros [other sim] Hin. simpl.
    assert (other ∈ sorted_sims.*1) as Ho.
    { apply list_elem_of_fmap. exists (other, sim).
      split; [done|]. by eapply elem_of_take_l. }
    rewrite Hperm in Ho. by apply list_elem_of_filter in Ho as [? _].
Qed.

End collaborative_filtering_facts.

(** ** The hybrid recommender *)

Section dict_facts.
Context {V : Type}.
Implicit Types (d : dict V) (k : string) (v : V).

Lemma dict_get_set d k v k' :
  dict_get (dict_set d k v) k'
  = if decide (k' = k) then Some v else dict_get d k'.
Proof.
  induction d as [|[k0 v0] d IH]; simpl.
  - done.
  - destruct (decide (k = k0)) as [->|Hk]; simpl.
    + by destruct (decide (k' = k0)).
    + destruct (decide (k' = k0)) as [->|?].
      * by rewrite decide_False by done.
      * done.
Qed.

Lemma dict_get_None d k : dict_get d k = None ↔ k ∉ d.*1.
Proof.
  induction d as [|[k0 v0] d IH]; simpl.
  - split; [intros _; apply not_elem_of_nil|done].
  - rewrite not_elem_of_cons. destruct (decide (k = k0)); naive_solver.
Qed.

Lemma dict_get_elem d k v : NoDup d.*1 → (k, v) ∈ d → dict_get d k = Some v.
Proof.
  induction d as [|[k0 v0] d IH]; simpl.
  - by intros _ ?%elem_of_nil.
  - intros [Hk0 Hnd]%NoDup_cons [[= -> ->]|Hin]%elem_of_cons.
    + by rewrite decide_True.
    + rewrite decide_False; [by apply IH|].
      intros ->. apply Hk0. apply list_elem_of_fmap. by exists (k0, v).
Qed.

Lemma dict_set_keys d k v :
  (dict_set d k v).*1 = if decide (k ∈ d.*1) then d.*1 else d.*1 ++ [k].
Proof.
  induction d as [|[k0 v0] d IH]; [done|]. cbn [dict_set].
  destruct (decide (k = k0)) as [->|Hk]; rewrite !fmap_cons; cbn [fst].
  - rewrite decide_True; [done|left].
  - rewrite IH. destruct (decide (k ∈ d.*1)) as [Hin|Hin].
    + rewrite decide_True; [done|by right].
    + rewrite decide_False; [done|]. by intros [?|?]%elem_of_cons.
Qed.

Lemma dict_set_NoDup d k v : NoDup d.*1 → NoDup (dict_set d k v).*1.
Proof.
  intros Hnd. rewrite dict_set_keys. case_decide as Hin; [done|].
  apply NoDup_app. split_and!; [done| |apply NoDup_singleton].
  by intros x Hx ->%list_elem_of_singleton.
Qed.

End dict_facts.

Section hybrid_facts.
Import DataPrep Recommenders Contract.
Context (cosine_similarity : list Q → list Q → Q).
Implicit Types (d : dict HybridRec.t) (p : string).

Lemma add_mba_scores_get w mba_recs d p :
  dict_get (add_mba_scores w mba_recs d) p
  = match last (filter (λ r, MBARec.product r = p) mba_recs) with
    | Some rec => Some (mba_entry w rec)
    | None => dict_get d p
    end.
Proof.
  unfold add_mba_scores. revert d.
  induction mba_recs as [|x l IH]; intros d; simpl; [done|].
  rewrite IH, filter_cons, dict_get_set.
  destruct (decide (MBARec.product x = p)) as [Hx|Hx].
  - rewrite last_cons.
    destruct (last (filter _ l)); [done|]. by rewrite decide_True.
  - destruct (last (filter _ l)); [done|]. by rewrite decide_False.
Qed.

Lemma add_mba_scores_NoDup w mba_recs d :
  NoDup d.*1 → NoDup (add_mba_scores w mba_recs d).*1.
Proof.
  unfold add_mba_scores. revert d.
  induction mba_recs as [|x l IH]; intros d Hd; simpl; [done|].
  by apply IH, dict_set_NoDup.
Qed.

Lemma add_cf_scores_step w rec d :
  match dict_get d (SimRec.product rec) with
  | Some entry =>
      dict_set d (SimRec.product rec)
        {| HybridRec.product := HybridRec.product entry;
           HybridRec.score :=
             (HybridRec.score entry + SimRec.similarity rec * w)%Q;
           HybridRec.mba_confidence := HybridRec.mba_confidence entry;
           HybridRec.cf_similarity := Some (SimRec.similarity rec);
           HybridRec.explanation := HybridRec.explanation entry |}
  | None =>
      dict_set d (SimRec.product rec)
        {| HybridRec.product := SimRec.product rec;
           HybridRec.score := (SimRec.similarity rec * w)%Q;
           HybridRec.mba_confidence := None;
           HybridRec.cf_similarity := Some (SimRec.similarity rec);
           HybridRec.explanation := SimRec.explanation rec |}
  end
  = dict_set d (SimRec.product rec)
      (cf_entry w rec (dict_get d (SimRec.product rec))).
Proof. by destruct (dict_get d (SimRec.product rec)). Qed.

Lemma add_cf_scores_get w cf_recs d p :
  NoDup (SimRec.product <$> cf_recs) →
  dict_get (add_cf_scores w cf_recs d) p
  = match head (filter (λ r, SimRec.product r = p) cf_recs) with
    | Some rec => Some (cf_entry w rec (dict_get d p))
    | None => dict_get d p
    end.
Proof.
  unfold add_cf_scores. revert d.
  induction cf_recs as [|x l IH]; intros d Hnd; simpl; [done|].
  rewrite fmap_cons in Hnd. apply NoDup_cons in Hnd as [Hx Hnd].
  rewrite add_cf_scores_step, IH, filter_cons, dict_get_set by done.
  destruct (decide (SimRec.product x = p)) as [<-|Hne].
  - assert (filter (λ r, SimRec.product r = SimRec.product x) l = []) as ->.
    { apply filter_none, Forall_forall. intros y Hy Heq. apply Hx.
      rewrite <- Heq. by apply list_elem_of_fmap_2. }
    simpl. by rewrite decide_True.
  - by rewrite decide_False by done.
Qed.

Lemma add_cf_scores_NoDup w cf_recs d :
  NoDup d.*1 → NoDup (add_cf_scores w cf_recs d).*1.
Proof.
  unfold add_cf_scores. revert d.
  induction cf_recs as [|x l IH]; intros d Hd; simpl; [done|].
  rewrite add_cf_scores_step. by apply IH, dict_set_NoDup.
Qed.

Lemma last_filter_None {A : Type} (P : A → Prop) `{∀ x, Decision (P x)}
    (l : list A) :
  last (filter P l) = None ↔ Forall (λ x, ¬ P x) l.
Proof.
  rewrite last_None. split.
  - intros Hnil. apply Forall_forall. intros x Hx HP.
    by eapply filter_nil_not_elem_of.
  - by apply filter_none.
Qed.

Lemma head_filter_None {A : Type} (P : A → Prop) `{∀ x, Decision (P x)}
    (l : list A) :
  head (filter P l) = None ↔ Forall (λ x, ¬ P x) l.
Proof.
  rewrite head_None. split.
  - intros Hnil. apply Forall_forall. intros x Hx HP.
    by eapply filter_nil_not_elem_of.
  - by apply filter_none.
Qed.

Lemma last_filter_Some_P {A : Type} (P : A → Prop) `{∀ x, Decision (P x)}
    (l : list A) x :
  last (filter P l) = Some x → P x ∧ x ∈ l.
Proof.
  intros Hl. apply last_Some in Hl as [l' Hl].
  assert (x ∈ filter P l) as Hin.
  { rewrite Hl. apply elem_of_app. right. left. }
  by apply list_elem_of_filter in Hin.
Qed.

Lemma head_filter_Some_P {A : Type} (P : A → Prop) `{∀ x, Decision (P x)}
    (l : list A) x :
  head (filter P l) = Some x → P x ∧ x ∈ l.
Proof.
  intros Hl. assert (x ∈ filter P l) as Hin.
  { destruct (filter P l); [done|]. injection Hl as ->. left. }
  by apply list_elem_of_filter in Hin.
Qed.

(** The merged dictionary, entry by entry. *)
Lemma merged_entry w_mba w_cf mba_recs cf_recs p e :
  NoDup (SimRec.product <$> cf_recs) →
  dict_get (add_cf_scores w_cf cf_recs (add_mba_scores w_mba mba_recs [])) p
  = Some e →
  HybridRec.product e = p
  ∧ HybridRec.mba_confidence e = last_confidence mba_recs p
  ∧ HybridRec.cf_similarity e = similarity_of cf_recs p
  ∧ HybridRec.score e
    = blend w_mba w_cf (HybridRec.mba_confidence e) (HybridRec.cf_similarity e).
Proof.
  intros Hnd. rewrite add_cf_scores_get, add_mba_scores_get by done.
  unfold last_confidence, similarity_of. simpl.
  destruct (head (filter _ cf_recs)) as [c|] eqn:Hc;
    destruct (last (filter _ mba_recs)) as [m|] eqn:Hm; simpl;
    intros [= <-]; simpl; try done.
  - apply last_filter_Some_P in Hm as [? _]. done.
  - apply head_filter_Some_P in Hc as [? _]. done.
  - apply last_filter_Some_P in Hm as [? _]. done.
Qed.

Lemma merged_keys w_mba w_cf mba_recs cf_recs p :
  NoDup (SimRec.product <$> cf_recs) →
  p ∈ (add_cf_scores w_cf cf_recs (add_mba_scores w_mba mba_recs [])).*1
  ↔ p ∈ MBARec.product <$> mba_recs ∨ p ∈ SimRec.product <$> cf_recs.
Proof.
  intros Hnd.
  set (d := add_cf_scores w_cf cf_recs (add_mba_scores w_mba mba_recs [])).
  assert (¬ p ∈ d.*1 ↔ dict_get d p = None) as Hnone
    by (symmetry; apply dict_get_None).
  assert (dict_get d p = None
          ↔ ¬ (p ∈ MBARec.product <$> mba_recs ∨ p ∈ SimRec.product <$> cf_recs))
    as Hget.
  { unfold d. rewrite add_cf_scores_get, add_mba_scores_get by done. simpl.
    destruct (head (filter _ cf_recs)) as [c|] eqn:Hc.
    - split; [done|]. intros []. right.
      apply head_filter_Some_P in Hc as [<- ?]. by apply list_elem_of_fmap_2.
    - apply head_filter_None in Hc. rewrite Forall_forall in Hc.
      destruct (last (filter _ mba_recs)) as [m|] eqn:Hm.
      + split; [done|]. intros []. left.
        apply last_filter_Some_P in Hm as [<- ?]. by apply list_elem_of_fmap_2.
      + apply last_filter_None in Hm. rewrite Forall_forall in Hm.
        split; [|done]. intros _ [Hin|Hin];
          apply list_elem_of_fmap in Hin as (x & -> & Hx);
          [by apply (Hm x)|by apply (Hc x)]. }
  destruct (decide (p ∈ d.*1));
    destruct (decide (p ∈ MBARec.product <$> mba_recs
                      ∨ p ∈ SimRec.product <$> cf_recs)); tauto.
Qed.

Lemma values_products d :
  (∀ k v, (k, v) ∈ d → HybridRec.product v = k) →
  HybridRec.product <$> dict_values d = d.*1.
Proof.
  intros Hd. unfold dict_values. rewrite <- list_fmap_compose.
  apply list_fmap_ext. intros i [k v] Hi. simpl. apply Hd.
  by eapply list_elem_of_lookup_2.
Qed.



End hybrid_facts.

(** ** The insights *)

Section insights_facts.
Import DataPrep Recommenders Insights Contract Examples Counting.

(** The only effect of [get_kpis] on the store: the frame behind [self.df]
    gains (or gets a fresh) [Price] column; its rows stay. *)
Lemma get_kpis_store self σ l frame :
  df self = Some l → σ !! l = Some frame →
  (get_kpis self σ).2
  = <[l := {| rows := rows frame;
              Price := Some ((λ r, price_mapping !! Product r) <$> rows frame) |}]> σ.
Proof.
  intros Hl Hf. unfold get_kpis, deref. rewrite Hl, Hf.
  by destruct (Date <$> rows frame).
Qed.

(** On any frame that has no [Price] column yet, [get_kpis] leaves one
    behind. *)
Lemma get_kpis_changes_columns self σ l frame :
  df self = Some l → σ !! l = Some frame → Price frame = None →
  ∃ frame', (get_kpis self σ).2 !! l = Some frame'
            ∧ rows frame' = rows frame
            ∧ columns frame' = columns frame ++ ["Price"].
Proof.
  intros Hl Hf Hp. rewrite (get_kpis_store self σ l frame) by done.
  eexists. rewrite lookup_insert_eq. split; [done|]. split; [done|].
  unfold columns. simpl. by rewrite Hp.
Qed.

(** [self.df] and [self.dp.df] are one reference. *)
Lemma BusinessInsights_init_alias data_preprocessor σ insights :
  BusinessInsights_init data_preprocessor σ = Ok insights →
  df insights = dp_df data_preprocessor ∧ dp insights = data_preprocessor.
Proof.
  unfold BusinessInsights_init.
  destruct (deref σ (dp_df data_preprocessor)) as [frame|]; [|done].
  rewrite bind_Ok. destruct (get_co_occurrence_matrix frame); [|done].
  rewrite bind_Ok. by intros [= <-].
Qed.

(** C8, at a concrete dataset. [self.df] is the very frame of the
    preprocessor; after [get_kpis] that frame has a [Price] column it did
    not have before, so the dataset's columns have changed (its rows have
    not). *)
Theorem C8_get_kpis_adds_a_column_to_the_dataset :
  ∃ insights frame frame',
    BusinessInsights_init example_preprocessor example_store = Ok insights
    ∧ df insights = dp_df example_preprocessor
    ∧ deref example_store (dp_df example_preprocessor) = Ok frame
    ∧ deref (get_kpis insights example_store).2 (dp_df example_preprocessor)
      = Ok frame'
    ∧ columns frame
      = ["CustomerID"; "Product"; "Date"; "Year"; "Month"; "DayOfWeek";
         "Season"]
    ∧ columns frame'
      = ["CustomerID"; "Product"; "Date"; "Year"; "Month"; "DayOfWeek";
         "Season"; "Price"]
    ∧ rows frame' = rows frame
    ∧ frame' ≠ frame.
Proof.
  destruct (BusinessInsights_init example_preprocessor example_store)
    as [insights|e] eqn:Hinit; [|vm_compute in Hinit; discriminate Hinit].
  assert (df insights = Some 1%positive) as Hdf
    by by apply BusinessInsights_init_alias in Hinit as [-> _].
  exists insights, example_frame,
    {| rows := rows example_frame;
       Price := Some ((λ r, price_mapping !! Product r) <$> rows example_frame) |}.
  split; [done|]. split; [done|]. split; [done|]. split.
  { rewrite (get_kpis_store insights example_store 1%positive example_frame)
      by done.
    change (dp_df example_preprocessor) with (Some 1%positive).
    unfold deref. by rewrite lookup_insert_eq. }
  repeat split; done.
Qed.

Lemma categorize_customer_cases row :
  (categorize_customer row = "High Value"
   ↔ 10 ≤ TotalPurchases row ∧ (1 # 2 <= AvgPurchasesPerDay row)%Q)
  ∧ (categorize_customer row = "Medium Value"
     ↔ ¬ (10 ≤ TotalPurchases row ∧ (1 # 2 <= AvgPurchasesPerDay row)%Q)
       ∧ 5 ≤ TotalPurchases row)
  ∧ (categorize_customer row = "Low Value"
     ↔ ¬ (10 ≤ TotalPurchases row ∧ (1 # 2 <= AvgPurchasesPerDay row)%Q)
       ∧ ¬ 5 ≤ TotalPurchases row).
Proof.
  unfold categorize_customer.
  destruct (decide (10 ≤ TotalPurchases row
                    ∧ (1 # 2 <= AvgPurchasesPerDay row)%Q)) as [Hhigh|Hhigh];
    [|destruct (decide (5 ≤ TotalPurchases row)) as [Hmed|Hmed]];
    split_and!; split; try discriminate; try tauto; done.
Qed.

(** C9. [get_customer_segments] gives every customer of the data exactly
    one row; the row counts the customer's purchases and distinct purchase
    days, and its segment is High Value iff purchases >= 10 and purchases
    per active day >= 0.5, otherwise Medium Value iff purchases >= 5,
    otherwise Low Value.  12 purchases over 20 days are High Value, 6 over 20
    days Medium Value, 3 purchases Low Value. *)
Theorem C9_customer_segmentation self σ frame :
  deref σ (df self) = Ok frame →
  ∃ segments,
    get_customer_segments self σ = Ok segments
    ∧ (∀ c, c ∈ CustomerID <$> rows frame
            ↔ c ∈ customer <$> customer_stats segments)
    ∧ NoDup (customer <$> customer_stats segments)
    ∧ (∀ row, row ∈ customer_stats segments →
         let mine := filter (λ r, CustomerID r = customer row) (rows frame) in
         TotalPurchases (stats row) = Z.of_nat (length mine)
         ∧ ActiveDays (stats row) = Z.of_nat (nunique (Date <$> mine))
         ∧ AvgPurchasesPerDay (stats row)
           = (inject_Z (TotalPurchases (stats row))
              / inject_Z (ActiveDays (stats row)))%Q
         ∧ (Segment row = "High Value"
            ↔ 10 ≤ TotalPurchases (stats row)
              ∧ (1 # 2 <= AvgPurchasesPerDay (stats row))%Q)
         ∧ (Segment row = "Medium Value"
            ↔ ¬ (10 ≤ TotalPurchases (stats row)
                 ∧ (1 # 2 <= AvgPurchasesPerDay (stats row))%Q)
              ∧ 5 ≤ TotalPurchases (stats row))
         ∧ (Segment row = "Low Value"
            ↔ ¬ (10 ≤ TotalPurchases (stats row)
                 ∧ (1 # 2 <= AvgPurchasesPerDay (stats row))%Q)
              ∧ ¬ 5 ≤ TotalPurchases (stats row)))
    ∧ categorize_customer
        {| TotalPurchases := 12; ActiveDays := 20;
           AvgPurchasesPerDay := 12 / 20 |} = "High Value"
    ∧ categorize_customer
        {| TotalPurchases := 6; ActiveDays := 20;
           AvgPurchasesPerDay := 6 / 20 |} = "Medium Value"
    ∧ (∀ days avg,
         categorize_customer
           {| TotalPurchases := 3; ActiveDays := days;
              AvgPurchasesPerDay := avg |} = "Low Value").
Proof.
  intros Hframe. unfold get_customer_segments. rewrite Hframe, bind_Ok.
  eexists. split; [done|]. simpl.
  destruct Z_ltb_order as (Hirr & Htrans & Htot).
  destruct (groupby_spec Z.ltb Hirr Htrans Htot CustomerID Date (rows frame))
    as (Hasc & Hkeys & _).
  assert (customer <$> ((λ row, {| customer := row.1; stats := row.2;
                                   Segment := categorize_customer row.2 |})
                        <$> customer_aggregates frame)
          = (groupby Z.ltb CustomerID Date (rows frame)).*1) as Hcust.
  { unfold customer_aggregates. rewrite <- !list_fmap_compose.
    apply list_fmap_ext. by intros _ [? ?] _. }
  split; [|split; [|split; [|split; [|split]]]].
  - intros c. by rewrite Hcust, Hkeys.
  - rewrite Hcust. by apply (ascending_NoDup Z.ltb).
  - intros row Hrow.
    apply list_elem_of_fmap in Hrow as ([c st] & -> & Hin).
    unfold customer_aggregates in Hin.
    apply list_elem_of_fmap in Hin as ([k vs] & [= -> ->] & Hin).
    apply (groupby_group Z.ltb Hirr Htrans Htot) in Hin. simpl.
    rewrite Hin, length_fmap.
    split; [done|]. split; [done|]. split; [done|].
    apply categorize_customer_cases.
  - done.
  - done.
  - intros days avg. reflexivity.
Qed.

Lemma nunique_le {A : Type} `{EqDecision A} (l : list A) :
  (nunique l ≤ length l)%nat.
Proof.
  unfold nunique. apply submseteq_length, NoDup_submseteq.
  - apply NoDup_unique.
  - intros x. by rewrite elem_of_unique.
Qed.

Lemma nunique_pos {A : Type} `{EqDecision A} (l : list A) :
  l ≠ [] → (0 < nunique l)%nat.
Proof.
  destruct l as [|x l]; [done|]. intros _. unfold nunique.
  assert (x ∈ unique (x :: l)) as Hx by (apply elem_of_unique; left).
  destruct (unique (x :: l)); [by apply elem_of_nil in Hx|simpl; lia].
Qed.

(** In the data a customer never has more active days than purchases, so
    the purchases-per-active-day of a row of [customer_stats] is at least
    1 and the 0.5 test of [categorize_customer] always passes there. *)
Lemma customer_average_at_least_one self σ frame segments row :
  deref σ (df self) = Ok frame →
  get_customer_segments self σ = Ok segments →
  row ∈ customer_stats segments →
  1 ≤ ActiveDays (stats row) ≤ TotalPurchases (stats row)
  ∧ (1 <= AvgPurchasesPerDay (stats row))%Q.
Proof.
  intros Hframe. unfold get_customer_segments. rewrite Hframe, bind_Ok.
  intros [= <-]. simpl. intros Hrow.
  apply list_elem_of_fmap in Hrow as ([c st] & -> & Hin).
  unfold customer_aggregates in Hin.
  apply list_elem_of_fmap in Hin as ([k vs] & [= -> ->] & Hin).
  destruct Z_ltb_order as (Hirr & Htrans & Htot).
  destruct (groupby_spec Z.ltb Hirr Htrans Htot CustomerID Date (rows frame))
    as (_ & Hkeys & _).
  assert (vs ≠ []) as Hne.
  { pose proof (groupby_group Z.ltb Hirr Htrans Htot _ _ _ _ _ Hin) as ->.
    assert (k ∈ CustomerID <$> rows frame) as Hk.
    { apply Hkeys. apply list_elem_of_fmap. eexists (k, _).
      split; [done|exact Hin]. }
    apply list_elem_of_fmap in Hk as (r & -> & Hr).
    intros Hnil. apply fmap_nil_inv in Hnil.
    assert (r ∈ filter (λ r0, CustomerID r0 = CustomerID r) (rows frame)) as Hf
      by by apply list_elem_of_filter.
    rewrite Hnil in Hf. by apply elem_of_nil in Hf. }
  simpl. pose proof (nunique_le vs). pose proof (nunique_pos vs Hne).
  split; [lia|].
  apply Qle_shift_div_l.
  - rewrite <- (Zlt_Qlt 0). lia.
  - rewrite Qmult_1_l, <- Zle_Qle. lia.
Qed.

(** C10. [get_basket_data] keeps the baskets of more than one row and, of
    those, the first 1000 in grouping order; with more than 1000 such
    baskets the rest is dropped, and a model fitted on the result is fitted
    on that 1000-basket prefix. *)
Theorem C10_get_basket_data_keeps_first_1000 frame :
  let multi := filter (λ basket, (1 < length basket)%nat) (baskets_of frame) in
  get_basket_data frame = take 1000 multi
  ∧ ((1000 < length multi)%nat →
     length (get_basket_data frame) = 1000%nat
     ∧ get_basket_data frame ≠ multi
     ∧ ∀ self, fit self (get_basket_data frame) = fit self (take 1000 multi)).
Proof.
  intros multi.
  assert (get_basket_data frame = take 1000 multi) as Heq.
  { unfold get_basket_data. fold multi. case_decide; [done|].
    rewrite take_ge; [done|lia]. }
  split; [done|]. intros Hlen. rewrite Heq. split; [|split; [|done]].
  - rewrite length_take. lia.
  - intros Htake. apply (f_equal length) in Htake.
    rewrite length_take in Htake. lia.
Qed.

End insights_facts.

(** ** The engine on the example dataset *)

Section examples.
Import DataPrep Recommenders Insights Contract Examples.

(** Decide a closed decidable proposition by running its decision
    procedure. *)
Ltac by_evaluation := apply (bool_decide_unpack _); vm_compute; exact I.

Lemma example_rules_fitted : rules example_mba = Some example_rules.
Proof. reflexivity. Qed.

Lemma example_hybrid_rules_fitted :
  rules (mba example_hybrid) = Some example_hybrid_rules.
Proof. reflexivity. Qed.

Lemma C1_witness :
  ∃ M, get_co_occurrence_matrix example_frame = Ok M
       ∧ (∀ A B, co_cells M !! (A, B) = co_cells M !! (B, A))
       ∧ (∀ A, A ∈ co_index M → co_cells M !! (A, A) = Some 0).
Proof.
  apply (C1_co_occurrence_symmetric_zero_diagonal example_frame).
  by_evaluation.
Defined.


(** The hypothesis of C3 matters: [get_recommendations] cuts to [top_n]
    before it drops a rule that recommends the query product, so on a table
    with such a rule it can return fewer entries than the pipeline that
    excludes first. *)
Lemma exclusion_follows_truncation :
  get_recommendations overlapping_model "Hoodie" 1 = Ok []
  ∧ MBARec.product
      <$> recommendForProduct (default [] (rules overlapping_model)) "Hoodie" 1
    = ["Sneakers"].
Proof. split; vm_compute; reflexivity. Qed.


Lemma C5_witness :
  let X := transaction_encode (get_basket_data example_frame) in
  let self := MarketBasketAnalyzer_init (1 # 10) (1 # 10) in
  ∃ fi rs,
    frequent_itemsets (fit self (get_basket_data example_frame)) = Some fi
    ∧ rules (fit self (get_basket_data example_frame)) = Some rs
    ∧ (∀ it, it ∈ fi →
         (min_support self <= fi_support it)%Q
         ∧ fi_support it = support_of X (itemsets it))
    ∧ (∀ r, r ∈ rs →
         (min_confidence self <= confidence r)%Q
         ∧ ∃ it, it ∈ fi
                 ∧ (∀ p, p ∈ itemsets it
                         ↔ p ∈ antecedents r ∨ p ∈ consequents r)
                 ∧ support r = fi_support it
                 ∧ (min_support self <= fi_support it)%Q)
    ∧ ((∀ s, s ≠ [] → s ⊆ p_columns X →
             ¬ (min_support self <= support_of X s)%Q) →
       fi = [] ∧ rs = []).
Proof.
  exact (C5_fit_respects_thresholds
           (MarketBasketAnalyzer_init (1 # 10) (1 # 10))
           (get_basket_data example_frame)).
Defined.

Lemma C6_witness :
  (fi_support {| fi_support := 3 # 4; itemsets := ["Blue Jeans"; "Hoodie"] |}
   <= fi_support {| fi_support := 4 # 4; itemsets := ["Blue Jeans"] |})%Q.
Proof.
  apply (C6_support_anti_monotone
           (MarketBasketAnalyzer_init (1 # 10) (1 # 10))
           (get_basket_data example_frame)
           (default [] (frequent_itemsets example_mba))
           {| fi_support := 4 # 4; itemsets := ["Blue Jeans"] |}
           {| fi_support := 3 # 4; itemsets := ["Blue Jeans"; "Hoodie"] |}
           "Hoodie").
  - reflexivity.
  - apply (list_elem_of_lookup_2 _ 0%nat). vm_compute. reflexivity.
  - apply (list_elem_of_lookup_2 _ 3%nat). vm_compute. reflexivity.
  - intros p. simpl. rewrite !elem_of_cons, !elem_of_nil. tauto.
Defined.

Lemma C2_witness :
  get_product_similarity dot_similarity example_cf "Scarf" 5 = Ok []
  ∧ get_user_recommendations example_cf 9999 5 = Ok [].
Proof.
  apply (C2_unknown_arguments_return_empty dot_similarity example_cf
           ["Blue Jeans"; "Hoodie"; "Sneakers"]
           (get_transaction_matrix example_frame) "Scarf" 9999 5).
  - vm_compute. reflexivity.
  - reflexivity.
  - by_evaluation.
  - by_evaluation.
Defined.

(** C2 as stated fails: on the fitted example model the product "Scarf"
    and the customer 9999 are absent from the fitted matrix, and both
    queries return the empty list instead of raising. *)
Lemma C2_absent_arguments_do_not_raise :
  products example_cf = Some ["Blue Jeans"; "Hoodie"; "Sneakers"]
  ∧ m_index <$> user_item_matrix example_cf = Some [2001; 2002; 2003; 2004]
  ∧ get_product_similarity dot_similarity example_cf "Scarf" 5 = Ok []
  ∧ get_user_recommendations example_cf 9999 5 = Ok []
  ∧ ¬ (∃ e, get_product_similarity dot_similarity example_cf "Scarf" 5 = Raise e)
  ∧ ¬ (∃ e, get_user_recommendations example_cf 9999 5 = Raise e).
Proof.
  assert (get_product_similarity dot_similarity example_cf "Scarf" 5 = Ok [])
    as Hp by (vm_compute; reflexivity).
  assert (get_user_recommendations example_cf 9999 5 = Ok [])
    as Hu by (vm_compute; reflexivity).
  split; [vm_compute; reflexivity|]. split; [vm_compute; reflexivity|].
  split; [done|]. split; [done|]. rewrite Hp, Hu.
  split; intros [e He]; discriminate He.
Qed.



Lemma C9_witness :
  ∃ segments,
    get_customer_segments example_insights example_store = Ok segments
    ∧ (∀ c, c ∈ CustomerID <$> rows example_frame
            ↔ c ∈ customer <$> customer_stats segments)
    ∧ NoDup (customer <$> customer_stats segments)
    ∧ (∀ row, row ∈ customer_stats segments →
         let mine :=
           filter (λ r, CustomerID r = customer row) (rows example_frame) in
         TotalPurchases (stats row) = Z.of_nat (length mine)
         ∧ ActiveDays (stats row) = Z.of_nat (nunique (Date <$> mine))
         ∧ AvgPurchasesPerDay (stats row)
           = (inject_Z (TotalPurchases (stats row))
              / inject_Z (ActiveDays (stats row)))%Q
         ∧ (Segment row = "High Value"
            ↔ 10 ≤ TotalPurchases (stats row)
              ∧ (1 # 2 <= AvgPurchasesPerDay (stats row))%Q)
         ∧ (Segment row = "Medium Value"
            ↔ ¬ (10 ≤ TotalPurchases (stats row)
                 ∧ (1 # 2 <= AvgPurchasesPerDay (stats row))%Q)
              ∧ 5 ≤ TotalPurchases (stats row))
         ∧ (Segment row = "Low Value"
            ↔ ¬ (10 ≤ TotalPurchases (stats row)
                 ∧ (1 # 2 <= AvgPurchasesPerDay (stats row))%Q)
              ∧ ¬ 5 ≤ TotalPurchases (stats row)))
    ∧ categorize_customer
        {| TotalPurchases := 12; ActiveDays := 20;
           AvgPurchasesPerDay := 12 / 20 |} = "High Value"
    ∧ categorize_customer
        {| TotalPurchases := 6; ActiveDays := 20;
           AvgPurchasesPerDay := 6 / 20 |} = "Medium Value"
    ∧ (∀ days avg,
         categorize_customer
           {| TotalPurchases := 3; ActiveDays := days;
              AvgPurchasesPerDay := avg |} = "Low Value").
Proof.
  apply (C9_customer_segmentation example_insights example_store example_frame).
  vm_compute. reflexivity.
Defined.

Lemma C10_witness :
  let frame := load_data (two_item_visits 1001) in
  length (get_basket_data frame) = 1000%nat
  ∧ get_basket_data frame
    ≠ filter (λ basket, (1 < length basket)%nat) (baskets_of frame)
  ∧ ∀ self,
      fit self (get_basket_data frame)
      = fit self (take 1000
                    (filter (λ basket, (1 < length basket)%nat)
                       (baskets_of frame))).
Proof.
  intros frame.
  apply (proj2 (C10_get_basket_data_keeps_first_1000 frame)).
  by_evaluation.
Defined.

End examples.

(** * Further properties of the code *)

(** Decide a closed decidable proposition by running its decision
    procedure. *)
Ltac by_running := apply (bool_decide_unpack _); vm_compute; exact I.

(** ** Baskets and the co-occurrence matrix *)

Section baskets_more.
Import DataPrep Counting ContractMore Examples.

Lemma group_insert_concat {K V : Type} `{EqDecision K} (ltb : K → K → bool)
    (k : K) (v : V) (groups : list (K * list V)) :
  concat (group_insert ltb k v groups).*2 ≡ₚ v :: concat groups.*2.
Proof.
  induction groups as [|[k0 vs0] groups IH]; [done|]. cbn [group_insert].
  destruct (decide (k = k0)) as [->|?]; [|destruct (ltb k k0)];
    rewrite ?fmap_cons; cbn [snd concat].
  - rewrite <- app_assoc. simpl.
    by rewrite <- Permutation_middle.
  - done.
  - rewrite IH. by rewrite <- Permutation_middle.
Qed.

Lemma group_insert_nonempty {K V : Type} `{EqDecision K} (ltb : K → K → bool)
    (k : K) (v : V) (groups : list (K * list V)) :
  Forall (λ vs, vs ≠ []) groups.*2 →
  Forall (λ vs, vs ≠ []) (group_insert ltb k v groups).*2.
Proof.
  induction groups as [|[k0 vs0] groups IH]; intros Hall; cbn [group_insert].
  - by repeat constructor.
  - rewrite fmap_cons in Hall. apply Forall_cons in Hall as [H0 Hall].
    destruct (decide (k = k0)) as [->|?]; [|destruct (ltb k k0)];
      rewrite ?fmap_cons; cbn [snd].
    + constructor; [|done]. by destruct vs0.
    + constructor; [done|]. by constructor.
    + constructor; [done|]. by apply IH.
Qed.

Lemma groupby_concat {A K V : Type} `{EqDecision K} (ltb : K → K → bool)
    (key : A → K) (val : A → V) (l : list A) :
  concat (groupby ltb key val l).*2 ≡ₚ val <$> l
  ∧ Forall (λ vs, vs ≠ []) (groupby ltb key val l).*2.
Proof.
  unfold groupby.
  assert (∀ acc,
    Forall (λ vs, vs ≠ []) acc.*2 →
    let groups :=
      fold_left (λ groups r, group_insert ltb (key r) (val r) groups) l acc in
    concat groups.*2 ≡ₚ concat acc.*2 ++ (val <$> l)
    ∧ Forall (λ vs, vs ≠ []) groups.*2) as Hgen.
  { induction l as [|r l IH]; intros acc Hacc; simpl.
    - by rewrite app_nil_r.
    - destruct (IH (group_insert ltb (key r) (val r) acc)) as [Hp Hne].
      { by apply group_insert_nonempty. }
      split; [|done]. rewrite Hp, group_insert_concat.
      by rewrite <- Permutation_middle. }
  destruct (Hgen []) as [Hp Hne]; [constructor|]. by split.
Qed.

(** X1. The baskets partition the transaction rows: taken together they
    hold the products of all rows, each row once, and no basket is empty. *)
Theorem X1_baskets_partition_the_rows (df : DataFrame) :
  concat (baskets_of df) ≡ₚ Product <$> rows df
  ∧ Forall (λ basket, basket ≠ []) (baskets_of df)
  ∧ length (concat (baskets_of df)) = length (rows df).
Proof.
  destruct (groupby_concat visit_ltb (λ r, (CustomerID r, Date r)) Product
              (rows df)) as [Hp Hne].
  split; [done|]. split; [done|].
  unfold baskets_of. by rewrite Hp, length_fmap.
Qed.

(** X2. [get_basket_data] never returns a basket of fewer than two rows,
    never returns more than 1000 baskets, and returns baskets of the
    dataset in their grouping order. *)
Theorem X2_get_basket_data_bounds (df : DataFrame) :
  Forall (λ basket, (1 < length basket)%nat) (get_basket_data df)
  ∧ (length (get_basket_data df) ≤ 1000)%nat
  ∧ get_basket_data df `sublist_of` baskets_of df.
Proof.
  assert (get_basket_data df
          = take 1000 (filter (λ b, (1 < length b)%nat) (baskets_of df))) as ->.
  { unfold get_basket_data. case_decide; [done|]. rewrite take_ge; [done|lia]. }
  split; [|split].
  - apply Forall_forall. intros b Hb%elem_of_take_l.
    by apply list_elem_of_filter in Hb as [? _].
  - rewrite length_take. lia.
  - etrans; [apply sublist_take|apply sublist_filter].
Qed.

Lemma occ_NoDup_elem A l : NoDup l → occ A l = if decide (A ∈ l) then 1 else 0.
Proof.
  intros Hnd. case_decide as Hin; [|by apply occ_not_elem_of].
  pose proof (occ_NoDup A l Hnd). assert (0 < occ A l); [|lia].
  clear Hnd H. induction l as [|x l IH]; [by apply elem_of_nil in Hin|].
  rewrite occ_cons. pose proof (occ_nonneg A l). unfold hit.
  apply elem_of_cons in Hin as [->|Hin].
  - rewrite bool_decide_eq_true_2 by done. lia.
  - specialize (IH Hin). case_bool_decide; lia.
Qed.

Lemma total_hits_baskets_with_both baskets A B :
  Forall NoDup baskets → A ≠ B →
  total_hits baskets (A, B) = baskets_with_both A B baskets.
Proof.
  intros Hnd Hne. unfold baskets_with_both.
  induction Hnd as [|b bs Hb _ IH]; [done|]. simpl.
  fold (total_hits bs (A, B)). rewrite IH, basket_hits_closed, filter_cons.
  rewrite !occ_NoDup_elem by done. rewrite (decide_False (P := A = B)) by done.
  destruct (decide (1 < length b)%nat) as [Hlen|Hlen].
  - destruct (decide (A ∈ b)), (decide (B ∈ b)).
    + rewrite decide_True by done. simpl length. lia.
    + rewrite decide_False by tauto. lia.
    + rewrite decide_False by tauto. lia.
    + rewrite decide_False by tauto. lia.
  - rewrite decide_False by tauto. lia.
Qed.

(** X3. When no basket repeats a product, the cell (A,B) of the
    co-occurrence matrix, for two different products of the data, is the
    number of baskets of more than one row that contain both A and B. *)
Theorem X3_co_occurrence_counts_common_baskets (df : DataFrame) :
  Forall NoDup (baskets_of df) →
  ∃ M, get_co_occurrence_matrix df = Ok M
       ∧ ∀ A B, A ∈ co_index M → B ∈ co_index M → A ≠ B →
           co_cells M !! (A, B) = Some (baskets_with_both A B (baskets_of df)).
Proof.
  intros Hnd. unfold get_co_occurrence_matrix.
  destruct (co_occurrence_cells (sorted (unique (Product <$> rows df)))
              (baskets_of df)) as (M & E & Hidx & HM).
  { intros b p. apply baskets_of_covered. }
  exists M. split; [done|]. intros A B HA HB Hne. rewrite Hidx in HA, HB.
  rewrite HM, decide_True by done.
  by rewrite total_hits_baskets_with_both.
Qed.

Lemma X3_witness :
  ∃ M, get_co_occurrence_matrix example_frame = Ok M
       ∧ ∀ A B, A ∈ co_index M → B ∈ co_index M → A ≠ B →
           co_cells M !! (A, B)
           = Some (baskets_with_both A B (baskets_of example_frame)).
Proof.
  apply (X3_co_occurrence_counts_common_baskets example_frame). by_running.
Defined.

Lemma total_hits_nonneg baskets A B : 0 ≤ total_hits baskets (A, B).
Proof.
  induction baskets as [|b bs IH]; [done|]. simpl.
  fold (total_hits bs (A, B)). rewrite basket_hits_closed.
  pose proof (occ_nonneg A b). pose proof (occ_nonneg B b).
  case_decide; [|lia]. case_decide; [subst|]; nia.
Qed.

(** X4. The co-occurrence matrix has a cell exactly for the pairs of
    products of the data, and no cell is negative; a basket that repeats a
    product (two rows, same product) makes that product's diagonal cell
    positive. *)
Theorem X4_co_occurrence_cells_defined_and_nonnegative (df : DataFrame) :
  ∃ M, get_co_occurrence_matrix df = Ok M
       ∧ (∀ A B, is_Some (co_cells M !! (A, B))
                 ↔ A ∈ Product <$> rows df ∧ B ∈ Product <$> rows df)
       ∧ (∀ A B c, co_cells M !! (A, B) = Some c → 0 ≤ c)
       ∧ (∀ A basket, basket ∈ baskets_of df → 1 < occ A basket →
            ∃ c, co_cells M !! (A, A) = Some c ∧ 0 < c).
Proof.
  unfold get_co_occurrence_matrix.
  destruct (co_occurrence_cells (sorted (unique (Product <$> rows df)))
              (baskets_of df)) as (M & E & Hidx & HM).
  { intros b p. apply baskets_of_covered. }
  exists M. split; [done|].
  assert (∀ A, A ∈ sorted (unique (Product <$> rows df))
               ↔ A ∈ Product <$> rows df) as Hlab.
  { intros A. unfold sorted. by rewrite elem_of_sort_asc, elem_of_unique. }
  split; [|split].
  - intros A B. rewrite HM, <- !Hlab. case_decide; [|split].
    + split; [done|by eexists].
    + by intros [? ?].
    + done.
  - intros A B c. rewrite HM. case_decide; [|done]. intros [= <-].
    apply total_hits_nonneg.
  - intros A basket Hb Hocc.
    assert (A ∈ basket) as HA.
    { destruct (decide (A ∈ basket)) as [|Hn]; [done|].
      rewrite occ_not_elem_of in Hocc by done. lia. }
    rewrite HM, decide_True by (split; by apply (baskets_of_covered df basket)).
    eexists. split; [done|].
    revert Hb. generalize (baskets_of df). intros bs Hb.
    induction bs as [|b bs IH]; [by apply elem_of_nil in Hb|]. simpl.
    fold (total_hits bs (A, A)). pose proof (total_hits_nonneg bs A A).
    apply elem_of_cons in Hb as [<-|Hb].
    + assert (1 < length basket)%nat as Hlen.
      { unfold occ in Hocc. pose proof (length_filter (λ x, x = A) basket).
        lia. }
      rewrite basket_hits_closed, !decide_True by done. nia.
    + specialize (IH Hb).
      assert (0 ≤ basket_hits b (A, A)); [|lia].
      rewrite basket_hits_closed. pose proof (occ_nonneg A b).
      case_decide; [|lia]. rewrite decide_True by done. nia.
Qed.

End baskets_more.

(** ** The statistics of [data_prep.py] *)

Section statistics_more.
Import DataPrep DataPrepMore Counting ContractMore Examples Generator.

Lemma sum_inject_Z (zs : list Z) :
  (foldr Qplus 0 (inject_Z <$> zs) == inject_Z (foldr Z.add 0%Z zs))%Q.
Proof.
  induction zs as [|z zs IH]; simpl; [done|].
  rewrite IH, inject_Z_plus. reflexivity.
Qed.

Lemma sum_indicator_0 (ps : list string) (x : string) :
  x ∉ ps →
  foldr Z.add 0 ((λ p, if decide (x = p) then 1 else 0) <$> ps) = 0.
Proof.
  induction ps as [|q ps IH]; [done|]. intros [? ?]%not_elem_of_cons.
  rewrite fmap_cons. cbn [foldr]. rewrite decide_False by done.
  by rewrite IH.
Qed.

Lemma sum_indicator (ps : list string) (x : string) :
  NoDup ps → x ∈ ps →
  foldr Z.add 0 ((λ p, if decide (x = p) then 1 else 0) <$> ps) = 1.
Proof.
  induction 1 as [|p ps Hp Hnd IH]; [by intros ?%elem_of_nil|].
  intros Hin. rewrite fmap_cons. cbn [foldr].
  apply elem_of_cons in Hin as [->|Hin].
  - rewrite decide_True by done. by rewrite sum_indicator_0.
  - rewrite decide_False by (by intros ->). by rewrite IH.
Qed.

Lemma count_by_product_cons (r : Row) (l : list Row) (ps : list string) (c : Z) :
  foldr Z.add 0
    ((λ p, Z.of_nat (length
        (filter (λ r0, CustomerID r0 = c ∧ Product r0 = p) (r :: l)))) <$> ps)
  = foldr Z.add 0 ((λ p, if decide (Product r = p) then 1 else 0) <$> ps)
    * (if decide (CustomerID r = c) then 1 else 0)
    + foldr Z.add 0
        ((λ p, Z.of_nat (length
            (filter (λ r0, CustomerID r0 = c ∧ Product r0 = p) l))) <$> ps).
Proof.
  induction ps as [|p ps IHp]; [done|]. rewrite !fmap_cons. cbn [foldr].
  rewrite IHp, filter_cons.
  destruct (decide (CustomerID r = c)), (decide (Product r = p)).
  - rewrite decide_True by done. simpl length. lia.
  - rewrite decide_False by tauto. lia.
  - rewrite decide_False by tauto. lia.
  - rewrite decide_False by tauto. lia.
Qed.

Lemma count_by_product (l : list Row) (ps : list string) (c : Z) :
  NoDup ps → (∀ r, r ∈ l → Product r ∈ ps) →
  foldr Z.add 0
    ((λ p, Z.of_nat (length (filter (λ r, CustomerID r = c ∧ Product r = p) l)))
     <$> ps)
  = Z.of_nat (length (filter (λ r, CustomerID r = c) l)).
Proof.
  intros Hnd. induction l as [|r l IH]; intros Hin.
  - clear. induction ps as [|p ps IHp]; [done|].
    rewrite fmap_cons. cbn [foldr]. by rewrite IHp.
  - rewrite count_by_product_cons, filter_cons.
    rewrite IH by (intros; apply Hin; by right).
    rewrite sum_indicator; [|done|apply Hin; left].
    destruct (decide (CustomerID r = c)); simpl length; lia.
Qed.

(** X5. The customer x product matrix has one row per customer and one
    column per product, each customer and each product once; it has no
    negative cell, and the cells of a customer's row add up to the number of
    transaction rows of that customer. *)
Theorem X5_transaction_matrix_rows_add_up (df : DataFrame) :
  let M := get_transaction_matrix df in
  NoDup (m_index M) ∧ NoDup (m_columns M)
  ∧ (∀ c, c ∈ m_index M ↔ c ∈ CustomerID <$> rows df)
  ∧ (∀ p, p ∈ m_columns M ↔ p ∈ Product <$> rows df)
  ∧ length (m_values M) = length (m_index M)
  ∧ (∀ i c row,
       m_index M !! i = Some c → m_values M !! i = Some row →
       length row = length (m_columns M)
       ∧ Forall (λ x, (0 <= x)%Q) row
       ∧ (foldr Qplus 0 row == inject_Z (purchases_of df c))%Q).
Proof.
  intros M. unfold M, get_transaction_matrix. simpl.
  set (customers := sort_asc Z.ltb (unique (CustomerID <$> rows df))).
  set (products := sorted (unique (Product <$> rows df))).
  assert (NoDup products) as Hps.
  { unfold products, sorted. rewrite sort_asc_perm. apply NoDup_unique. }
  assert (∀ p, p ∈ products ↔ p ∈ Product <$> rows df) as Hpin.
  { intros p. unfold products, sorted.
    by rewrite elem_of_sort_asc, elem_of_unique. }
  split; [|split; [done|split; [|split; [done|split]]]].
  - unfold customers. rewrite sort_asc_perm. apply NoDup_unique.
  - intros c. unfold customers. by rewrite elem_of_sort_asc, elem_of_unique.
  - by rewrite length_fmap.
  - intros i c row Hc Hrow. rewrite list_lookup_fmap, Hc in Hrow.
    injection Hrow as <-. split; [by rewrite length_fmap|]. split.
    + apply Forall_fmap, Forall_forall. intros p _. simpl.
      rewrite <- (Zle_Qle 0). lia.
    + set (g := λ p, Z.of_nat (length
                 (filter (λ r, CustomerID r = c ∧ Product r = p) (rows df)))).
      change (foldr Qplus 0 ((inject_Z ∘ g) <$> products)
              == inject_Z (purchases_of df c))%Q.
      rewrite list_fmap_compose, sum_inject_Z.
      unfold purchases_of, g.
      rewrite (count_by_product (rows df) products c); [reflexivity|done|].
      intros r Hr. apply Hpin. by apply list_elem_of_fmap_2.
Qed.




Lemma idxmax_spec e rest :
  ∃ label value,
    idxmax (e :: rest) = Ok label
    ∧ (label, value) ∈ e :: rest
    ∧ Forall (λ x, x.2 ≤ value) (e :: rest).
Proof.
  unfold idxmax.
  assert (∀ best,
    let r := fold_left (λ best x, if decide (best.2 < x.2) then x else best)
               rest best in
    r ∈ best :: rest ∧ best.2 ≤ r.2 ∧ Forall (λ x, x.2 ≤ r.2) rest) as Hgen.
  { induction rest as [|x rest IH]; intros best; simpl.
    - split; [left|]. split; [done|constructor].
    - destruct (decide (best.2 < x.2)) as [Hlt|Hge].
      + destruct (IH x) as (Hin & Hle & Hall).
        split; [by right|]. split; [lia|]. by constructor.
      + destruct (IH best) as (Hin & Hle & Hall).
        split; [|split; [done|constructor; [lia|done]]].
        apply elem_of_cons in Hin as [->|Hin]; [left|by right; right]. }
  destruct (Hgen e) as (Hin & Hle & Hall).
  eexists _, _. split; [done|]. split.
  - by rewrite <- surjective_pairing.
  - by constructor.
Qed.

Lemma idxmax_nonempty l :
  l ≠ [] →
  ∃ label value,
    idxmax l = Ok label ∧ (label, value) ∈ l ∧ Forall (λ x, x.2 ≤ value) l.
Proof. destruct l as [|e rest]; [done|]. intros _. apply idxmax_spec. Qed.

(** X7. [get_customer_insights] raises on an empty dataset ([idxmax] of
    an empty series); on any other dataset it returns, counts every customer
    once, and names as most active a customer whose number of purchases no
    other customer exceeds. *)
Theorem X7_most_active_customer_is_maximal (df : DataFrame) :
  (rows df = [] → get_customer_insights df = Raise ValueError)
  ∧ (rows df ≠ [] →
     ∃ insights,
       get_customer_insights df = Ok insights
       ∧ total_customers insights = nunique (CustomerID <$> rows df)
       ∧ ∃ best, best ∈ DataPrepMore.customer_stats insights
                 ∧ ci_customer best = most_active_customer insights
                 ∧ ci_TotalPurchases best
                   = purchases_of df (most_active_customer insights)
                 ∧ ∀ other, other ∈ DataPrepMore.customer_stats insights →
                     ci_TotalPurchases other ≤ ci_TotalPurchases best).
Proof.
  split.
  - intros Hnil. unfold get_customer_insights, customer_insight_rows.
    by rewrite Hnil.
  - intros Hne. unfold get_customer_insights.
    destruct Z_ltb_order as (Hirr & Htrans & Htot).
    destruct (groupby_spec Z.ltb Hirr Htrans Htot CustomerID Date (rows df))
      as (Hasc & Hkeys & _).
    set (stats := customer_insight_rows df).
    assert (ci_customer <$> stats
            = (groupby Z.ltb CustomerID Date (rows df)).*1) as Hcust.
    { unfold stats, customer_insight_rows. rewrite <- list_fmap_compose.
      apply list_fmap_ext. by intros _ [? ?] _. }
    assert (stats ≠ []) as Hstats.
    { intros Hnil. destruct (rows df) as [|r l] eqn:Hr; [done|].
      assert (CustomerID r ∈ (groupby Z.ltb CustomerID Date (r :: l)).*1) as Hk.
      { apply Hkeys. rewrite fmap_cons. left. }
      rewrite <- Hcust, Hnil in Hk. by apply elem_of_nil in Hk. }
    destruct (idxmax_nonempty ((λ r, (ci_customer r, ci_TotalPurchases r))
                               <$> stats))
      as (label & value & Hidx & Hin & Hall).
    { by destruct stats. }
    rewrite Hidx, bind_Ok.
    eexists. split; [done|]. simpl. split.
    + rewrite <- (length_fmap ci_customer), Hcust.
      unfold nunique. apply Permutation_length, NoDup_Permutation.
      * by apply (ascending_NoDup Z.ltb).
      * apply NoDup_unique.
      * intros c. by rewrite Hkeys, elem_of_unique.
    + apply list_elem_of_fmap in Hin as (best & [= -> ->] & Hbest).
      exists best. split; [done|]. split; [done|]. split.
      * unfold stats, customer_insight_rows in Hbest.
        apply list_elem_of_fmap in Hbest as ([k vs] & -> & Hg). simpl.
        apply (groupby_group Z.ltb Hirr Htrans Htot) in Hg.
        by rewrite Hg, length_fmap.
      * intros other Ho. rewrite Forall_fmap, Forall_forall in Hall.
        by apply (Hall other).
Qed.

Lemma X7_witness :
  ∃ insights,
    get_customer_insights example_frame = Ok insights
    ∧ total_customers insights = nunique (CustomerID <$> rows example_frame)
    ∧ ∃ best, best ∈ DataPrepMore.customer_stats insights
              ∧ ci_customer best = most_active_customer insights
              ∧ ci_TotalPurchases best
                = purchases_of example_frame (most_active_customer insights)
              ∧ ∀ other, other ∈ DataPrepMore.customer_stats insights →
                  ci_TotalPurchases other ≤ ci_TotalPurchases best.
Proof.
  apply (proj2 (X7_most_active_customer_is_maximal example_frame)). done.
Defined.

(** X8. The loader's season and the generator's season agree on every
    calendar month (the loader writes the name capitalised); for a month
    outside 1..12 the loader's [Season] is NaN while the generator answers
    "winter". *)
Theorem X8_loader_and_generator_seasons_agree (r : RawRow) :
  let m := month (raw_date r) in
  (1 ≤ m ≤ 12 →
   Season (load_row r) = Some (capitalize (get_season (raw_date r))))
  ∧ (¬ 1 ≤ m ≤ 12 →
     Season (load_row r) = None ∧ get_season (raw_date r) = "winter").
Proof.
  destruct r as [c p [y m d]]. simpl. unfold season_of_month, get_season. simpl.
  split.
  - intros Hm.
    assert (m = 1 ∨ m = 2 ∨ m = 3 ∨ m = 4 ∨ m = 5 ∨ m = 6 ∨ m = 7 ∨ m = 8
            ∨ m = 9 ∨ m = 10 ∨ m = 11 ∨ m = 12) as Hcases by lia.
    destruct Hcases as [->|[->|[->|[->|[->|[->|[->|[->|[->|[->|[->| ->]]]]]]]]]]];
      reflexivity.
  - intros Hm.
    rewrite !bool_decide_eq_false_2; [done|..];
      rewrite !elem_of_cons, elem_of_nil; lia.
Qed.

Lemma X8_witness :
  Season (load_row (visit 2001 "Hoodie" 1))
  = Some (capitalize (get_season (raw_date (visit 2001 "Hoodie" 1)))).
Proof.
  apply (proj1 (X8_loader_and_generator_seasons_agree (visit 2001 "Hoodie" 1))).
  simpl. lia.
Defined.

End statistics_more.

(** ** The recommenders at their edges *)

Section recommenders_more.
Import DataPrep Recommenders Contract ContractMore Examples.

(** X9. [get_recommendations] answers with the empty list, not an error,
    when the model is not fitted and when no rule has the product in its
    antecedent, whatever the rules otherwise are. *)
Theorem X9_no_rule_for_the_product_gives_empty_list self product top_n :
  (rules self = None
   ∨ ∃ rs, rules self = Some rs ∧ Forall (λ r, product ∉ antecedents r) rs) →
  get_recommendations self product top_n = Ok [].
Proof.
  unfold get_recommendations. intros [->|(rs & -> & Hnone)]; [done|].
  case_decide; [done|].
  rewrite (filter_none (λ r, product ∈ antecedents r) rs); [done|].
  eapply Forall_impl; [exact Hnone|]. by intros r Hr.
Qed.

Lemma X9_witness : get_recommendations example_mba "Scarf" 5 = Ok [].
Proof.
  apply (X9_no_rule_for_the_product_gives_empty_list example_mba "Scarf" 5).
  right. exists example_rules. split; [reflexivity|]. by_running.
Defined.

(** X10. [get_basket_recommendations] answers with the empty list when the
    model is not fitted, and when the basket is not empty and no rule's
    antecedent shares a product with it: neither pass selects a rule. *)
Theorem X10_no_rule_for_the_basket_gives_empty_list self basket top_n :
  (rules self = None
   ∨ ∃ rs, rules self = Some rs ∧ basket ≠ []
           ∧ Forall (λ r, Forall (λ p, p ∉ antecedents r) basket) rs) →
  get_basket_recommendations self basket top_n = Ok [].
Proof.
  unfold get_basket_recommendations. intros [->|(rs & -> & Hne & Hnone)]; [done|].
  case_decide; [done|].
  assert (filter (λ r, Forall (λ p, p ∈ antecedents r) basket) rs = []) as ->.
  { apply filter_none. eapply Forall_impl; [exact Hnone|]. intros r Hr Hall.
    destruct basket as [|p basket]; [done|].
    apply Forall_cons in Hr as [Hp _]. apply Forall_cons in Hall as [Hp' _].
    done. }
  simpl.
  assert (filter (λ r, Exists (λ p, p ∈ antecedents r) basket) rs = []) as ->.
  { apply filter_none. eapply Forall_impl; [exact Hnone|]. intros r Hr Hex.
    apply Exists_exists in Hex as (p & Hp & Hin).
    rewrite Forall_forall in Hr. by apply (Hr p). }
  done.
Qed.

Lemma X10_witness :
  get_basket_recommendations example_mba ["Scarf"; "Backpack"] 5 = Ok [].
Proof.
  apply (X10_no_rule_for_the_basket_gives_empty_list example_mba
           ["Scarf"; "Backpack"] 5).
  right. exists example_rules. split; [reflexivity|]. split; [done|].
  by_running.
Defined.



End recommenders_more.

(** ** Collaborative filtering *)

Section collaborative_filtering_more.
Import DataPrep Recommenders Contract ContractMore Examples.
Context (TruncatedSVD : nat → list (list Q) → list (list Q) * list (list Q)).
Context (cosine_similarity : list Q → list Q → Q).

Lemma filter_ne_length (l : list string) x :
  NoDup l → x ∈ l → S (length (filter (λ p, p ≠ x) l)) = length l.
Proof.
  induction 1 as [|y l Hy Hnd IH]; intros Hin; [by apply elem_of_nil in Hin|].
  destruct (decide (y = x)) as [->|Hne].
  - rewrite filter_cons_False by (intros Hx; by apply Hx).
    rewrite filter_all; [done|].
    apply Forall_forall. intros p Hp ->. done.
  - rewrite filter_cons_True by done. simpl. f_equal. apply IH.
    apply elem_of_cons in Hin as [->|Hin]; done.
Qed.

Lemma sort_desc_by_key_sorted {A : Type} (key : A → Q) (l : list A) :
  StronglySorted (λ a b, (key b <= key a)%Q)
    (sort_desc (λ x y, Qltb (key x) (key y)) l).
Proof.
  rewrite <- (list_fmap_id (sort_desc _ l)).
  apply (StronglySorted_fmap _ (λ a b, Qltb (key a) (key b) = false)).
  { intros x y. apply Qltb_ge. }
  apply sort_desc_sorted.
  - intros a b c. rewrite !Qltb_ge. intros. lra.
  - intros a b. rewrite Qltb_lt, Qltb_ge. intros. lra.
Qed.

Lemma StronglySorted_filter {A : Type} (R : relation A) (P : A → Prop)
    `{∀ x, Decision (P x)} (l : list A) :
  StronglySorted R l → StronglySorted R (filter P l).
Proof.
  induction 1 as [|x l Hs IH Hx]; [constructor|].
  rewrite filter_cons. destruct (decide (P x)); [|done].
  constructor; [done|].
  apply Forall_forall. intros y [_ Hy]%list_elem_of_filter.
  rewrite Forall_forall in Hx. by apply Hx.
Qed.

(** The similarity query on a fitted model, in one expression. *)
Lemma get_product_similarity_shape self ps product top_n :
  cf_fitted self → products self = Some ps →
  ∃ sims,
    get_product_similarity cosine_similarity self product top_n
    = Ok ((λ '(other_product, similarity),
             {| SimRec.product := other_product;
                SimRec.similarity := similarity;
                SimRec.explanation :=
                  "Similar to " +:+ product
                  +:+ " based on customer preferences" |})
          <$> take top_n (sort_desc (λ x y, Qltb x.2 y.2) sims))
    ∧ sims.*1 = (if decide (product ∈ ps)
                 then filter (λ p, p ≠ product) ps else []).
Proof.
  unfold cf_fitted, get_product_similarity. intros Hfit Hps.
  rewrite Hps in *. destruct (item_factors self) as [itf|]; [|done].
  destruct Hfit as [Hlen _]. simpl.
  destruct (decide (product ∉ ps)) as [Hp|Hp].
  { exists []. rewrite decide_False by done. by destruct top_n. }
  apply dec_stable in Hp. rewrite (decide_True (P := product ∈ ps)) by done.
  destruct (index_of_elem ps product Hp) as (idx & -> & Hidx). rewrite bind_Ok.
  destruct (getitem_lt itf idx) as [pv ->]; [lia|]. rewrite bind_Ok.
  destruct (similarities_loop cosine_similarity product pv itf ps 0 [])
    as (sims & Hs & Hsims); [simpl; lia|].
  unfold enumerate. rewrite Hs, bind_Ok. by exists sims.
Qed.

(** X12. For a product of the fitted matrix, [get_product_similarity]
    returns exactly min(top_n, n - 1) recommendations, n being the number
    of products: every one is another product of the matrix, and they come
    in descending order of similarity. *)
Theorem X12_similar_products_count_and_order self ps product top_n :
  cf_fitted self → products self = Some ps → product ∈ ps →
  ∃ recs,
    get_product_similarity cosine_similarity self product top_n = Ok recs
    ∧ length recs = Nat.min top_n (length ps - 1)
    ∧ Forall (λ rec, SimRec.product rec ∈ ps ∧ SimRec.product rec ≠ product)
        recs
    ∧ StronglySorted
        (λ a b, (SimRec.similarity b <= SimRec.similarity a)%Q) recs.
Proof.
  intros Hfit Hps Hin.
  destruct (get_product_similarity_shape self ps product top_n Hfit Hps)
    as (sims & -> & Hsims).
  rewrite decide_True in Hsims by done.
  assert (NoDup ps) as Hnd.
  { unfold cf_fitted in Hfit. rewrite Hps in Hfit.
    destruct (item_factors self); [by destruct Hfit|done]. }
  eexists. split; [done|]. split; [|split].
  - rewrite length_fmap, length_take, sort_desc_length.
    rewrite <- (length_fmap fst sims), Hsims.
    pose proof (filter_ne_length ps product Hnd Hin). lia.
  - apply Forall_fmap, Forall_forall. intros [other sim] Ho. simpl.
    assert (other ∈ sims.*1) as Hother.
    { apply list_elem_of_fmap. exists (other, sim). split; [done|].
      apply elem_of_take_l in Ho. by apply elem_of_sort_desc in Ho. }
    rewrite Hsims in Hother.
    by apply list_elem_of_filter in Hother as [? ?].
  - apply (StronglySorted_fmap _ (λ a b : string * Q, (b.2 <= a.2)%Q)).
    { by intros [? ?] [? ?]. }
    apply StronglySorted_take, (sort_desc_by_key_sorted snd).
Qed.

Lemma cf_fit_fitted self df :
  cf_fitted (cf_fit TruncatedSVD self (get_transaction_matrix df)).
Proof.
  unfold cf_fitted, cf_fit. simpl. split.
  - unfold transpose. by rewrite length_fmap, length_seq.
  - unfold sorted. rewrite sort_asc_perm. apply NoDup_unique.
Qed.

(** X13. After [fit] on the matrix of [get_transaction_matrix], whatever
    factors the decomposition returned, [get_product_similarity] never
    raises: it returns at most [top_n] recommendations, each a product of
    the dataset other than the one asked about and none twice, and the
    empty list for a product the dataset does not have. *)
Theorem X13_similarity_after_fit_never_raises self df product top_n :
  ∃ recs,
    get_product_similarity cosine_similarity
      (cf_fit TruncatedSVD self (get_transaction_matrix df)) product top_n
    = Ok recs
    ∧ (length recs ≤ top_n)%nat
    ∧ NoDup (SimRec.product <$> recs)
    ∧ Forall (λ rec, SimRec.product rec ≠ product
                     ∧ SimRec.product rec ∈ Product <$> rows df) recs
    ∧ (product ∉ Product <$> rows df → recs = []).
Proof.
  set (model := cf_fit TruncatedSVD self (get_transaction_matrix df)).
  set (ps := sorted (unique (Product <$> rows df))).
  assert (∀ p, p ∈ ps ↔ p ∈ Product <$> rows df) as Hps.
  { intros p. unfold ps, sorted. by rewrite sort_asc_perm, elem_of_unique. }
  destruct (get_product_similarity_returns cosine_similarity model product
              top_n (cf_fit_fitted self df))
    as (recs & Hrecs & Hlen & Hnd & Hne).
  destruct (get_product_similarity_shape model ps product top_n
              (cf_fit_fitted self df) eq_refl) as (sims & Hshape & Hsims).
  exists recs. split; [done|]. split; [done|]. split; [done|].
  rewrite Hrecs in Hshape. injection Hshape as ->. split.
  - apply Forall_forall. intros rec Hrec. split.
    { rewrite Forall_forall in Hne. by apply Hne. }
    apply list_elem_of_fmap in Hrec as ([other sim] & -> & Ho). simpl.
    assert (other ∈ sims.*1) as Hother.
    { apply list_elem_of_fmap. exists (other, sim). split; [done|].
      apply elem_of_take_l in Ho. by apply elem_of_sort_desc in Ho. }
    rewrite Hsims in Hother. destruct (decide (product ∈ ps)).
    + apply list_elem_of_filter in Hother as [_ ?]. by apply Hps.
    + by apply elem_of_nil in Hother.
  - intros Hout. rewrite decide_False in Hsims by (by rewrite Hps).
    apply fmap_nil_inv in Hsims as ->. by destruct top_n.
Qed.

Lemma index_of_lookup {A : Type} `{EqDecision A} (l : list A) (x : A) i :
  index_of l x = Ok i → l !! i = Some x.
Proof.
  unfold index_of.
  destruct (list_find (λ y, y = x) l) as [[j y]|] eqn:Hf; [|done].
  intros [= ->]. by apply list_find_Some in Hf as (Hi & -> & _).
Qed.

Lemma dot_same_length u v :
  length u = length v → dot u v = Ok (foldr Qplus 0%Q (zip_with Qmult u v)).
Proof. intros Hlen. unfold dot. by rewrite decide_True. Qed.

Lemma np_dot_loop (m : list (list Q)) v acc :
  Forall (λ row, length row = length v) m →
  ∃ out,
    for_each (λ acc row, x ← dot row v; Ok (acc ++ [x])) m acc = Ok out
    ∧ length out = (length acc + length m)%nat.
Proof.
  intros Hm. revert acc.
  induction Hm as [|row m Hrow _ IH]; intros acc; cbn [for_each].
  - exists acc. split; [done|simpl; lia].
  - rewrite (dot_same_length row v Hrow), !bind_Ok.
    destruct (IH (acc ++ [foldr Qplus 0%Q (zip_with Qmult row v)]))
      as (out & -> & Hout).
    exists out. split; [done|]. rewrite Hout, length_app. simpl. lia.
Qed.

(** The loop keeps the first max(top_n, 1) scored products that the
    customer has not bought. *)
Lemma user_loop_take purchased top_n scores recs :
  user_loop purchased top_n scores recs
  = recs
    ++ take (Nat.max (top_n - length recs) 1)
         ((λ x, {| UserRec.product := x.1; UserRec.score := x.2;
                   UserRec.explanation :=
                     "Based on similar customers' preferences" |})
          <$> filter (λ x, x.1 ∉ purchased) scores).
Proof.
  revert recs. induction scores as [|[p sc] rest IH]; intros recs.
  - simpl. by rewrite take_nil, app_nil_r.
  - cbn [user_loop]. rewrite filter_cons. cbn [fst].
    destruct (decide (p ∉ purchased)) as [Hp|Hp]; [|apply IH].
    rewrite fmap_cons. cbn [fst snd].
    destruct (decide (top_n ≤ length (recs ++ [_]))%nat) as [Hfull|Hmore];
      rewrite length_app in *; simpl in Hfull || simpl in Hmore.
    + replace (Nat.max (top_n - length recs) 1) with 1%nat by lia.
      by rewrite firstn_cons, take_0.
    + rewrite IH, length_app. simpl length.
      replace (Nat.max (top_n - length recs) 1)
        with (S (Nat.max (top_n - (length recs + 1)) 1)) by lia.
      by rewrite firstn_cons, <- app_assoc.
Qed.

Lemma zip_fst_sublist {A B : Type} (l : list A) (k : list B) :
  (zip l k).*1 `sublist_of` l.
Proof.
  revert k. induction l as [|x l IH]; intros [|y k]; simpl;
    try apply sublist_nil_l.
  by apply sublist_skip.
Qed.

Lemma elem_of_zip_fmap {A B : Type} (f : A → B) (l : list A) x :
  x ∈ l → (x, f x) ∈ zip l (f <$> l).
Proof.
  induction l as [|y l IH]; [by intros ?%elem_of_nil|].
  rewrite fmap_cons. cbn [zip zip_with]. rewrite !elem_of_cons.
  intros [->|Hin]; [by left|right; by apply IH].
Qed.

(** The user query on a model whose factors fit its matrix, in one
    expression. *)
Lemma get_user_recommendations_shape self uim ps user_id top_n :
  cf_user_ready self →
  user_item_matrix self = Some uim → products self = Some ps →
  user_id ∈ m_index uim →
  ∃ loc row predicted,
    m_index uim !! loc = Some user_id
    ∧ m_values uim !! loc = Some row
    ∧ get_user_recommendations self user_id top_n
      = Ok (take (Nat.max top_n 1)
              ((λ x, {| UserRec.product := x.1; UserRec.score := x.2;
                        UserRec.explanation :=
                          "Based on similar customers' preferences" |})
               <$> filter
                     (λ x, x.1 ∉ (filter (λ cell, (0 < cell.2)%Q)
                                    (zip (m_columns uim) row)).*1)
                     (sort_desc (λ x y, Qltb x.2 y.2) (zip ps predicted)))).
Proof.
  unfold cf_user_ready, get_user_recommendations. intros Hready Huim Hps Hin.
  rewrite Huim, Hps in *.
  destruct (user_factors self) as [uf|]; [|done].
  destruct (item_factors self) as [itf|]; [|done].
  destruct Hready as (Hvalues & Huf & Hlens & _). simpl.
  rewrite decide_False by (intros Hout; by apply Hout).
  destruct (index_of_elem (m_index uim) user_id Hin) as (loc & Hloc & Hlt).
  rewrite Hloc, bind_Ok.
  destruct (lookup_lt_is_Some_2 (m_values uim) loc) as [row Hrow]; [lia|].
  destruct (lookup_lt_is_Some_2 uf loc) as [user_vector Hvec]; [lia|].
  unfold getitem. rewrite Hrow, Hvec, !bind_Ok.
  assert (Forall (λ v, length v = length user_vector) itf) as Hitf.
  { rewrite Forall_forall in Hlens. apply Hlens.
    by eapply list_elem_of_lookup_2. }
  destruct (np_dot_loop itf user_vector [] Hitf) as (predicted & Hdot & _).
  unfold np_dot. rewrite Hdot, bind_Ok.
  exists loc, row, predicted.
  split; [by apply index_of_lookup|]. split; [done|].
  rewrite user_loop_take. simpl. by rewrite Nat.sub_0_r.
Qed.

(** X14. On a fitted model whose factors fit its matrix,
    [get_user_recommendations] for a customer of the matrix returns at
    most max(top_n, 1) recommendations, in descending order of score and
    no product twice, and never a product whose count in that customer's
    row of the matrix is positive. *)
Theorem X14_user_recommendations_skip_purchased self uim user_id top_n :
  cf_user_ready self → user_item_matrix self = Some uim →
  user_id ∈ m_index uim →
  ∃ loc row recs,
    m_index uim !! loc = Some user_id
    ∧ m_values uim !! loc = Some row
    ∧ get_user_recommendations self user_id top_n = Ok recs
    ∧ (length recs ≤ Nat.max top_n 1)%nat
    ∧ NoDup (UserRec.product <$> recs)
    ∧ StronglySorted (λ a b, (UserRec.score b <= UserRec.score a)%Q) recs
    ∧ Forall (λ rec, ∀ count, (UserRec.product rec, count)
                               ∈ zip (m_columns uim) row →
                              (count <= 0)%Q) recs.
Proof.
  intros Hready Huim Hin.
  assert (∃ ps, products self = Some ps ∧ NoDup ps) as (ps & Hps & Hnd).
  { unfold cf_user_ready in Hready. rewrite Huim in Hready.
    destruct (user_factors self), (item_factors self), (products self) as [ps|];
      try done.
    exists ps. by destruct Hready as (_ & _ & _ & ?). }
  destruct (get_user_recommendations_shape self uim ps user_id top_n
              Hready Huim Hps Hin) as (loc & row & predicted & Hloc & Hrow & ->).
  exists loc, row. eexists. do 3 (split; [done|]).
  set (scores := sort_desc _ (zip ps predicted)).
  set (purchased := (filter _ (zip (m_columns uim) row)).*1).
  split; [|split; [|split]].
  - rewrite length_take. lia.
  - assert (NoDup scores.*1) as Hscores.
    { unfold scores. rewrite sort_desc_perm.
      eapply sublist_NoDup; [exact Hnd|apply zip_fst_sublist]. }
    rewrite fmap_take, <- list_fmap_compose.
    eapply sublist_NoDup; [exact Hscores|].
    etrans; [apply sublist_take|].
    apply (fmap_sublist fst), sublist_filter.
  - apply StronglySorted_take.
    apply (StronglySorted_fmap _ (λ a b : string * Q, (b.2 <= a.2)%Q)).
    { by intros [? ?] [? ?]. }
    apply StronglySorted_filter, (sort_desc_by_key_sorted snd).
  - apply Forall_forall. intros rec Hrec%elem_of_take_l count Hcount.
    apply list_elem_of_fmap in Hrec as (x & -> & Hx).
    apply list_elem_of_filter in Hx as [Hx _]. simpl in Hcount.
    apply Qnot_lt_le. intros Hpos. apply Hx. unfold purchased.
    apply list_elem_of_fmap. exists (x.1, count). split; [done|].
    by apply list_elem_of_filter.
Qed.

Lemma cf_fit_user_ready self df :
  svd_shaped TruncatedSVD (n_components self)
    (m_values (get_transaction_matrix df)) →
  cf_user_ready (cf_fit TruncatedSVD self (get_transaction_matrix df)).
Proof.
  intros [Hrows Hcols]. unfold cf_user_ready, cf_fit. cbn [user_item_matrix
    user_factors item_factors products].
  split; [|split; [|split]].
  - simpl. by rewrite length_fmap.
  - rewrite Hrows. simpl. by rewrite length_fmap.
  - eapply Forall_impl; [exact Hcols|]. intros u Hu. unfold transpose.
    apply Forall_fmap, Forall_forall. intros j _. simpl.
    by rewrite length_fmap.
  - simpl. unfold sorted. rewrite sort_asc_perm. apply NoDup_unique.
Qed.

(** X15. After [fit] on the matrix of [get_transaction_matrix], with
    factors of the shapes the decomposition gives,
    [get_user_recommendations] never raises and never recommends a
    product that the customer has a row for in the dataset; every
    recommendation is a product of the dataset, and a customer without
    rows gets the empty list. *)
Theorem X15_user_recommendations_after_fit self df user_id top_n :
  svd_shaped TruncatedSVD (n_components self)
    (m_values (get_transaction_matrix df)) →
  ∃ recs,
    get_user_recommendations
      (cf_fit TruncatedSVD self (get_transaction_matrix df)) user_id top_n
    = Ok recs
    ∧ Forall (λ rec,
                UserRec.product rec ∈ Product <$> rows df
                ∧ Forall (λ r, CustomerID r = user_id →
                               Product r ≠ UserRec.product rec) (rows df))
        recs
    ∧ (user_id ∉ CustomerID <$> rows df → recs = []).
Proof.
  intros Hshape.
  set (M := get_transaction_matrix df).
  set (model := cf_fit TruncatedSVD self M).
  set (customers := sort_asc Z.ltb (unique (CustomerID <$> rows df))).
  set (ps := sorted (unique (Product <$> rows df))).
  assert (∀ c, c ∈ customers ↔ c ∈ CustomerID <$> rows df) as Hcustomers.
  { intros c. unfold customers. by rewrite sort_asc_perm, elem_of_unique. }
  assert (∀ p, p ∈ ps ↔ p ∈ Product <$> rows df) as Hproducts.
  { intros p. unfold ps, sorted. by rewrite sort_asc_perm, elem_of_unique. }
  destruct (decide (user_id ∈ customers)) as [Hin|Hout].
  2:{ exists []. split; [|split; [constructor|done]].
      unfold get_user_recommendations, model, cf_fit. simpl.
      by rewrite decide_True. }
  destruct (get_user_recommendations_shape model M ps user_id top_n
              (cf_fit_user_ready self df Hshape) eq_refl eq_refl Hin)
    as (loc & row & predicted & Hloc & Hrow & ->).
  eexists. split; [done|]. split.
  2:{ intros Hno. destruct Hno. by apply Hcustomers. }
  set (count := λ p, inject_Z (Z.of_nat (length
         (filter (λ r, CustomerID r = user_id ∧ Product r = p) (rows df))))).
  assert (row = count <$> ps) as ->.
  { unfold M, get_transaction_matrix in Hrow, Hloc. simpl in Hrow, Hloc.
    fold customers ps in Hrow, Hloc.
    rewrite list_lookup_fmap, Hloc in Hrow. by injection Hrow as <-. }
  apply Forall_forall. intros rec Hrec%elem_of_take_l.
  apply list_elem_of_fmap in Hrec as ([p sc] & -> & Hx). simpl.
  apply list_elem_of_filter in Hx as [Hnew Hscore]. simpl in Hnew.
  assert (p ∈ ps) as Hp.
  { apply elem_of_sort_desc in Hscore. by apply elem_of_zip_l in Hscore. }
  split; [by apply Hproducts|].
  apply Forall_forall. intros r Hr Hc Hprod. apply Hnew.
  apply list_elem_of_fmap. exists (p, count p). split; [done|].
  apply list_elem_of_filter. split; [|by apply elem_of_zip_fmap].
  simpl. unfold count.
  assert (r ∈ filter (λ r, CustomerID r = user_id ∧ Product r = p) (rows df))
    as Hfound by (by apply list_elem_of_filter).
  destruct (filter _ (rows df)) as [|r' found]; [by apply elem_of_nil in Hfound|].
  simpl length. unfold Qlt. simpl. lia.
Qed.

End collaborative_filtering_more.

(** ** The hybrid recommender at its edges *)

Section hybrid_more.
Import DataPrep Recommenders Contract ContractMore Examples.
Context (cosine_similarity : list Q → list Q → Q).

(** The loop of [get_recommendations] returns when every rule has a
    consequent, and skips the product asked about. *)
Lemma product_loop_excludes product (l : list Rule) acc :
  Forall (λ r, consequents r ≠ []) l →
  Forall (λ rec, MBARec.product rec ≠ product) acc →
  ∃ out,
    for_each
      (λ recommendations rule,
         consequent ← first_consequent rule;
         if decide (consequent ≠ product)
         then Ok (recommendations ++ [product_rec product rule consequent])
         else Ok recommendations)
      l acc
    = Ok out
    ∧ Forall (λ rec, MBARec.product rec ≠ product) out.
Proof.
  intros Hl. revert acc.
  induction Hl as [|r l Hr _ IH]; intros acc Hacc; cbn [for_each].
  - by exists acc.
  - assert (∃ c, first_consequent r = Ok c) as [c ->].
    { unfold first_consequent, getitem.
      destruct (consequents r) as [|c rest]; [done|]. by exists c. }
    rewrite bind_Ok. destruct (decide (c ≠ product)) as [Hc|Hc];
      rewrite bind_Ok; apply IH; [|done].
    apply Forall_app. split; [done|]. by constructor.
Qed.

Lemma get_recommendations_excludes self rs product top_n :
  rules self = Some rs → Forall (λ r, consequents r ≠ []) rs →
  ∃ out,
    get_recommendations self product top_n = Ok out
    ∧ Forall (λ rec, MBARec.product rec ≠ product) out.
Proof.
  intros Hrs Hne. unfold get_recommendations. rewrite Hrs.
  case_decide; [by exists []|]. case_decide; [by exists []|].
  apply product_loop_excludes; [|constructor].
  apply Forall_forall. intros r Hr%elem_of_take_l.
  unfold sort_values in Hr. apply elem_of_sort_desc in Hr.
  apply list_elem_of_filter in Hr as [_ Hr].
  rewrite Forall_forall in Hne. by apply Hne.
Qed.

(** X16. On a fitted hybrid model whose rules all have a consequent,
    [get_recommendations] returns at most [top_n] entries, no product
    twice, and never the product that was asked about. *)
Theorem X16_hybrid_never_recommends_the_query self rs product top_n :
  rules (mba self) = Some rs → Forall (λ r, consequents r ≠ []) rs →
  cf_fitted (cf self) →
  ∃ out,
    hybrid_get_recommendations cosine_similarity self product top_n = Ok out
    ∧ (length out ≤ top_n)%nat
    ∧ NoDup (HybridRec.product <$> out)
    ∧ Forall (λ rec, HybridRec.product rec ≠ product) out.
Proof.
  intros Hrs Hne Hcf.
  destruct (get_recommendations_excludes (mba self) rs product (top_n * 2)
              Hrs Hne) as (mba_recs & Hmba & Hmba_ne).
  destruct (get_product_similarity_returns cosine_similarity (cf self)
              product (top_n * 2) Hcf) as (cf_recs & Hsim & _ & Hnd & Hcf_ne).
  unfold hybrid_get_recommendations. rewrite Hmba, Hsim, !bind_Ok.
  set (d := add_cf_scores (cf_weight self) cf_recs
              (add_mba_scores (mba_weight self) mba_recs [])).
  assert (NoDup d.*1) as Hkeys.
  { apply add_cf_scores_NoDup, add_mba_scores_NoDup. constructor. }
  assert (HybridRec.product <$> dict_values d = d.*1) as Hvalues.
  { apply values_products. intros k v Hin.
    apply (merged_entry (mba_weight self) (cf_weight self) mba_recs cf_recs);
      [done|]. by apply dict_get_elem. }
  set (final := sort_desc _ (dict_values d)).
  assert (HybridRec.product <$> final ≡ₚ d.*1) as Hfinal.
  { unfold final. by rewrite sort_desc_perm, Hvalues. }
  exists (take top_n final). split; [done|]. split; [|split].
  - rewrite length_take. lia.
  - rewrite fmap_take. eapply sublist_NoDup; [|apply sublist_take].
    by rewrite Hfinal.
  - apply Forall_forall. intros rec Hrec%elem_of_take_l.
    assert (HybridRec.product rec ∈ d.*1) as Hkey.
    { rewrite <- Hfinal. by apply list_elem_of_fmap_2. }
    destruct (proj1 (merged_keys (mba_weight self) (cf_weight self) mba_recs
                       cf_recs (HybridRec.product rec) Hnd) Hkey) as [Hin|Hin];
      apply list_elem_of_fmap in Hin as (x & -> & Hx).
    + rewrite Forall_forall in Hmba_ne. by apply Hmba_ne.
    + rewrite Forall_forall in Hcf_ne. by apply Hcf_ne.
Qed.

(** X17. A product that no rule has in its antecedent and that the
    fitted matrix does not have gets the empty list from the hybrid
    [get_recommendations], not an error. *)
Theorem X17_hybrid_unknown_product_gives_empty_list self ps product top_n :
  (rules (mba self) = None
   ∨ ∃ rs, rules (mba self) = Some rs
           ∧ Forall (λ r, product ∉ antecedents r) rs) →
  products (cf self) = Some ps → product ∉ ps →
  hybrid_get_recommendations cosine_similarity self product top_n = Ok [].
Proof.
  intros Hmba Hps Hout.
  assert (get_recommendations (mba self) product (top_n * 2) = Ok []) as Hrecs.
  { unfold get_recommendations. destruct Hmba as [->|(rs & -> & Hnone)]; [done|].
    case_decide; [done|].
    rewrite (filter_none (λ r, product ∈ antecedents r) rs); [done|].
    eapply Forall_impl; [exact Hnone|]. by intros r Hr. }
  assert (get_product_similarity cosine_similarity (cf self) product
            (top_n * 2) = Ok []) as Hsim.
  { unfold get_product_similarity. rewrite Hps. simpl.
    by rewrite decide_True. }
  unfold hybrid_get_recommendations. rewrite Hrecs, Hsim. simpl.
  by destruct top_n.
Qed.

(** X18. Before [fit], the market-basket queries return the empty list,
    while the collaborative-filtering queries raise ([TypeError] for a
    product, [AttributeError] for a customer) and so does the hybrid
    query ([TypeError]). *)
Theorem X18_queries_before_fit min_support min_confidence n_components
    mba_weight cf_weight product basket user_id top_n :
  get_recommendations (MarketBasketAnalyzer_init min_support min_confidence)
    product top_n = Ok []
  ∧ get_basket_recommendations
      (MarketBasketAnalyzer_init min_support min_confidence) basket top_n
    = Ok []
  ∧ get_product_similarity cosine_similarity
      (CollaborativeFilteringRecommender_init n_components) product top_n
    = Raise TypeError
  ∧ get_user_recommendations
      (CollaborativeFilteringRecommender_init n_components) user_id top_n
    = Raise AttributeError
  ∧ hybrid_get_recommendations cosine_similarity
      (HybridRecommender_init mba_weight cf_weight) product top_n
    = Raise TypeError.
Proof. repeat split. Qed.

End hybrid_more.

(** ** The business insights *)

Section insights_more.
Import DataPrep DataPrepMore Insights InsightsMore Contract ContractMore.
Import Counting Examples.









(** The result of [get_kpis] depends on the rows of the frame only. *)
Lemma get_kpis_result_rows self σ1 σ2 l frame1 frame2 :
  df self = Some l → σ1 !! l = Some frame1 → σ2 !! l = Some frame2 →
  rows frame1 = rows frame2 →
  (get_kpis self σ1).1 = (get_kpis self σ2).1.
Proof.
  intros Hl H1 H2 Hrows. unfold get_kpis, deref. rewrite Hl, H1, H2, Hrows.
  by destruct (Date <$> rows frame2).
Qed.

(** X21. [get_kpis] writes nothing but the [Price] column of the frame
    behind [self.df]: a second call returns the same result and leaves the
    store as the first call left it, the other queries of the object answer
    after the call as before it, and every other frame of the store is
    untouched. *)
Theorem X21_get_kpis_is_idempotent_and_leaves_queries_alone self σ :
  let σ' := (get_kpis self σ).2 in
  get_kpis self σ' = ((get_kpis self σ).1, σ')
  ∧ get_customer_segments self σ' = get_customer_segments self σ
  ∧ get_co_purchase_insights self σ' = get_co_purchase_insights self σ
  ∧ get_product_affinity_network self σ' = get_product_affinity_network self σ
  ∧ (∀ l, df self ≠ Some l → σ' !! l = σ !! l).
Proof.
  intros σ'.
  destruct (df self) as [l|] eqn:Hl; [destruct (σ !! l) as [frame|] eqn:Hf|].
  - set (frame' := {| rows := rows frame;
                      Price := Some ((λ r, price_mapping !! Product r)
                                     <$> rows frame) |}).
    assert (σ' = <[l := frame']> σ) as Hσ'
      by (by apply get_kpis_store).
    assert (σ' !! l = Some frame') as Hf'
      by (by rewrite Hσ', lookup_insert_eq).
    assert (deref σ (df self) = Ok frame) as Hd
      by (unfold deref; by rewrite Hl, Hf).
    assert (deref σ' (df self) = Ok frame') as Hd'
      by (unfold deref; by rewrite Hl, Hf').
    split; [|split; [|split; [|split]]].
    + rewrite (surjective_pairing (get_kpis self σ')). f_equal.
      * by apply (get_kpis_result_rows self σ' σ l frame' frame).
      * rewrite (get_kpis_store self σ' l frame') by done.
        rewrite Hσ' at 1. by rewrite insert_insert_eq.
    + unfold get_customer_segments. by rewrite Hd, Hd'.
    + unfold get_co_purchase_insights. by rewrite Hd, Hd'.
    + unfold get_product_affinity_network. by rewrite Hd, Hd'.
    + intros l' Hl'. rewrite Hσ', lookup_insert_ne; [done|]. congruence.
  - assert (get_kpis self σ = (Raise TypeError, σ)) as Hk.
    { unfold get_kpis, deref. by rewrite Hl, Hf. }
    unfold σ'. rewrite Hk. simpl. by rewrite Hk.
  - assert (get_kpis self σ = (Raise TypeError, σ)) as Hk.
    { unfold get_kpis, deref. by rewrite Hl. }
    unfold σ'. rewrite Hk. simpl. by rewrite Hk.
Qed.

(** X22. In the data a customer has at least one purchase per active
    day, so the segment that [get_customer_segments] gives depends on the
    number of purchases alone: High Value from 10 on, Medium Value from 5
    to 9, Low Value below 5. *)
Theorem X22_segment_is_decided_by_the_purchase_count self σ segments row :
  get_customer_segments self σ = Ok segments →
  row ∈ Insights.customer_stats segments →
  (Segment row = "High Value" ↔ 10 ≤ TotalPurchases (stats row))
  ∧ (Segment row = "Medium Value" ↔ 5 ≤ TotalPurchases (stats row) < 10)
  ∧ (Segment row = "Low Value" ↔ TotalPurchases (stats row) < 5).
Proof.
  intros Hseg Hrow.
  destruct (deref σ (df self)) as [frame|] eqn:Hframe.
  2:{ unfold get_customer_segments in Hseg. by rewrite Hframe in Hseg. }
  destruct (customer_average_at_least_one self σ frame segments row
              Hframe Hseg Hrow) as [_ Havg].
  assert (Segment row = categorize_customer (stats row)) as ->.
  { unfold get_customer_segments in Hseg. rewrite Hframe, bind_Ok in Hseg.
    injection Hseg as <-. simpl in Hrow.
    by apply list_elem_of_fmap in Hrow as (x & -> & _). }
  assert (1 # 2 <= AvgPurchasesPerDay (stats row))%Q as Hhalf by lra.
  destruct (categorize_customer_cases (stats row)) as (Hhigh & Hmed & Hlow).
  rewrite Hhigh, Hmed, Hlow. split_and!.
  - split; [by intros [? _]|by intros].
  - split.
    + intros [Hnot Hfive]. split; [done|].
      destruct (decide (10 ≤ TotalPurchases (stats row))) as [Hten|Hten]; [|lia].
      by destruct Hnot.
    + intros [Hfive Hten]. split; [|done]. intros [? _]. lia.
  - split.
    + intros [_ Hfive]. lia.
    + intros Hfive. split; [intros [? _]; lia|lia].
Qed.

Lemma value_counts_lookup (l : list string) (s : string) :
  value_counts l !! s
  = if decide (s ∈ l) then Some (count_of s l) else None.
Proof.
  unfold count_of. induction l as [|x l IH]; [done|].
  cbn [value_counts foldr]. fold (value_counts l).
  destruct (decide (s = x)) as [->|Hne].
  - rewrite decide_True by (by left). rewrite lookup_insert_eq, IH.
    rewrite filter_cons_True by done. simpl length. f_equal. f_equal.
    case_decide as Hin; [done|]. simpl.
    rewrite filter_none; [done|].
    apply Forall_forall. by intros y Hy ->.
  - rewrite lookup_insert_ne, IH by done.
    rewrite filter_cons_False by done.
    destruct (decide (s ∈ l)) as [Hin|Hin].
    + rewrite decide_True; [done|]. by right.
    + rewrite decide_False; [done|]. by intros [?|?]%elem_of_cons.
Qed.

(** X23. The [segment_distribution] of [get_customer_segments] maps a
    segment to the number of customers in it; a segment without customers
    is absent (not mapped to 0), no other key than the three segment names
    occurs, and the three counts add up to the number of customers. *)
Theorem X23_segment_distribution_counts_customers self σ segments :
  get_customer_segments self σ = Ok segments →
  let names := Segment <$> Insights.customer_stats segments in
  let number_in s := default 0%nat (segment_distribution segments !! s) in
  (∀ s, segment_distribution segments !! s
        = if decide (s ∈ names) then Some (count_of s names) else None)
  ∧ (∀ s, is_Some (segment_distribution segments !! s) →
          s ∈ ["High Value"; "Medium Value"; "Low Value"])
  ∧ (number_in "High Value" + number_in "Medium Value" + number_in "Low Value"
     = length (Insights.customer_stats segments))%nat.
Proof.
  intros Hseg names number_in.
  assert (segment_distribution segments = value_counts names
          ∧ Forall (λ s, s ∈ ["High Value"; "Medium Value"; "Low Value"]) names)
    as [Hdist Hnames].
  { unfold get_customer_segments in Hseg.
    destruct (deref σ (df self)) as [frame|]; [|done].
    rewrite bind_Ok in Hseg. injection Hseg as <-. split; [done|].
    unfold names. simpl. apply Forall_fmap, Forall_fmap, Forall_forall.
    intros x _. simpl. unfold categorize_customer.
    repeat case_decide; set_solver. }
  assert (∀ s, number_in s = count_of s names) as Hnumber.
  { intros s. unfold number_in. rewrite Hdist, value_counts_lookup.
    case_decide as Hin; [done|]. simpl. unfold count_of.
    rewrite filter_none; [done|]. apply Forall_forall. by intros y Hy ->. }
  split; [|split].
  - intros s. by rewrite Hdist, value_counts_lookup.
  - intros s. rewrite Hdist, value_counts_lookup.
    case_decide as Hin; [|by intros [? ?]].
    intros _. rewrite Forall_forall in Hnames. by apply Hnames.
  - rewrite !Hnumber, <- (length_fmap Segment). fold names.
    unfold count_of. clear Hdist Hnumber.
    induction Hnames as [|s rest Hs _ IH]; [done|].
    rewrite !filter_cons. simpl length. rewrite <- IH.
    set_unfold in Hs. destruct Hs as [->|[->|[->|[]]]];
      repeat case_decide; try done; simpl length; lia.
Qed.

End insights_more.

(** ** Totals and averages *)

Section averages_more.
Import DataPrep DataPrepMore Insights InsightsMore Contract ContractMore.
Import Counting Examples.

Lemma sum_of_sizes {K V : Type} (groups : list (K * list V)) :
  foldr Z.add 0 ((λ g, Z.of_nat (length g.2)) <$> groups)
  = Z.of_nat (length (concat groups.*2)).
Proof.
  induction groups as [|[k vs] groups IH]; [done|].
  rewrite !fmap_cons. cbn [foldr concat snd]. rewrite IH, length_app. lia.
Qed.

(** The sizes of the groups of a [groupby] add up to the number of rows. *)
Lemma groupby_sizes {A K V : Type} `{EqDecision K} (ltb : K → K → bool)
    (key : A → K) (val : A → V) (l : list A) :
  foldr Z.add 0 ((λ g, Z.of_nat (length g.2)) <$> groupby ltb key val l)
  = Z.of_nat (length l).
Proof.
  rewrite sum_of_sizes.
  destruct (groupby_concat ltb key val l) as [Hperm _].
  by rewrite Hperm, length_fmap.
Qed.

(** There is one group per distinct key. *)
Lemma groupby_length {A K V : Type} `{EqDecision K} (ltb : K → K → bool)
    (key : A → K) (val : A → V) (l : list A) :
  (∀ a, ltb a a = false) →
  (∀ a b c, ltb a b = true → ltb b c = true → ltb a c = true) →
  (∀ a b, a ≠ b → ltb a b = false → ltb b a = true) →
  length (groupby ltb key val l) = nunique (key <$> l).
Proof.
  intros Hirr Htrans Htot.
  destruct (groupby_spec ltb Hirr Htrans Htot key val l) as (Hasc & Hkeys & _).
  rewrite <- (length_fmap fst). unfold nunique.
  apply Permutation_length, NoDup_Permutation.
  - by apply (ascending_NoDup ltb).
  - apply NoDup_unique.
  - intros k. by rewrite Hkeys, elem_of_unique.
Qed.




(** X25. On a dataset with rows, both [avg_purchases_per_customer] and
    [avg_basket_size] of [get_customer_insights] are the number of rows
    divided by the number of customers: the second is an average per
    customer too, not per basket. *)
Theorem X25_customer_insights_average_is_per_customer (df : DataFrame) :
  rows df ≠ [] →
  ∃ insights,
    get_customer_insights df = Ok insights
    ∧ (0 < total_customers insights)%nat
    ∧ avg_purchases_per_customer insights
      = (inject_Z (Z.of_nat (length (rows df)))
         / inject_Z (Z.of_nat (total_customers insights)))%Q
    ∧ DataPrepMore.avg_basket_size insights
      = avg_purchases_per_customer insights.
Proof.
  intros Hne. unfold get_customer_insights.
  destruct Z_ltb_order as (Hirr & Htrans & Htot).
  set (stats := customer_insight_rows df).
  assert (length stats = nunique (CustomerID <$> rows df)) as Hlen.
  { unfold stats, customer_insight_rows. rewrite length_fmap.
    by apply groupby_length. }
  assert (0 < length stats)%nat as Hpos.
  { rewrite Hlen. apply nunique_pos. by destruct (rows df). }
  destruct (idxmax_nonempty ((λ r, (ci_customer r, ci_TotalPurchases r))
                             <$> stats))
    as (label & value & Hidx & _).
  { destruct stats; [simpl in Hpos; lia|done]. }
  rewrite Hidx, bind_Ok. eexists. split; [done|]. simpl.
  split; [done|]. split; [|done].
  unfold mean. rewrite length_fmap. f_equal. f_equal.
  unfold stats, customer_insight_rows. rewrite <- list_fmap_compose.
  apply (groupby_sizes Z.ltb CustomerID Date (rows df)).
Qed.



End averages_more.

Section more_examples.
Import DataPrep DataPrepMore Recommenders Insights InsightsMore.
Import Contract ContractMore Examples ExamplesMore.

Lemma X12_witness :
  ∃ recs,
    get_product_similarity dot_similarity example_cf "Blue Jeans" 2 = Ok recs
    ∧ length recs
      = Nat.min 2 (length (m_columns (get_transaction_matrix example_frame)) - 1)
    ∧ Forall (λ rec,
                SimRec.product rec
                ∈ m_columns (get_transaction_matrix example_frame)
                ∧ SimRec.product rec ≠ "Blue Jeans") recs
    ∧ StronglySorted
        (λ a b, (SimRec.similarity b <= SimRec.similarity a)%Q) recs.
Proof.
  apply (X12_similar_products_count_and_order dot_similarity example_cf
           (m_columns (get_transaction_matrix example_frame)) "Blue Jeans" 2).
  - by_running.
  - reflexivity.
  - by_running.
Defined.

Lemma X14_witness :
  ∃ loc row recs,
    m_index (get_transaction_matrix example_frame) !! loc = Some 2002
    ∧ m_values (get_transaction_matrix example_frame) !! loc = Some row
    ∧ get_user_recommendations example_cf 2002 2 = Ok recs
    ∧ (length recs ≤ Nat.max 2 1)%nat
    ∧ NoDup (UserRec.product <$> recs)
    ∧ StronglySorted (λ a b, (UserRec.score b <= UserRec.score a)%Q) recs
    ∧ Forall (λ rec, ∀ count, (UserRec.product rec, count)
                               ∈ zip (m_columns
                                        (get_transaction_matrix example_frame))
                                   row →
                              (count <= 0)%Q) recs.
Proof.
  apply (X14_user_recommendations_skip_purchased example_cf
           (get_transaction_matrix example_frame) 2002 2).
  - by_running.
  - reflexivity.
  - by_running.
Defined.

Lemma X15_witness :
  ∃ recs,
    get_user_recommendations
      (cf_fit identity_svd (CollaborativeFilteringRecommender_init 10)
         (get_transaction_matrix example_frame)) 2002 2
    = Ok recs
    ∧ Forall (λ rec,
                UserRec.product rec ∈ Product <$> rows example_frame
                ∧ Forall (λ r, CustomerID r = 2002 →
                               Product r ≠ UserRec.product rec)
                    (rows example_frame))
        recs
    ∧ (2002 ∉ CustomerID <$> rows example_frame → recs = []).
Proof.
  apply (X15_user_recommendations_after_fit identity_svd
           (CollaborativeFilteringRecommender_init 10) example_frame 2002 2).
  by_running.
Defined.

Lemma X16_witness :
  ∃ out,
    hybrid_get_recommendations dot_similarity example_hybrid "Blue Jeans" 2
    = Ok out
    ∧ (length out ≤ 2)%nat
    ∧ NoDup (HybridRec.product <$> out)
    ∧ Forall (λ rec, HybridRec.product rec ≠ "Blue Jeans") out.
Proof.
  apply (X16_hybrid_never_recommends_the_query dot_similarity example_hybrid
           example_hybrid_rules "Blue Jeans" 2).
  - reflexivity.
  - by_running.
  - by_running.
Defined.

Lemma X17_witness :
  hybrid_get_recommendations dot_similarity example_hybrid "Scarf" 3 = Ok [].
Proof.
  apply (X17_hybrid_unknown_product_gives_empty_list dot_similarity
           example_hybrid (m_columns (get_transaction_matrix example_frame))
           "Scarf" 3).
  - right. exists example_hybrid_rules. split; [reflexivity|]. by_running.
  - reflexivity.
  - by_running.
Defined.




Lemma X22_witness :
  (Segment example_segment_row = "High Value"
   ↔ 10 ≤ TotalPurchases (stats example_segment_row))
  ∧ (Segment example_segment_row = "Medium Value"
     ↔ 5 ≤ TotalPurchases (stats example_segment_row) < 10)
  ∧ (Segment example_segment_row = "Low Value"
     ↔ TotalPurchases (stats example_segment_row) < 5).
Proof.
  apply (X22_segment_is_decided_by_the_purchase_count example_insights
           example_store example_segments example_segment_row).
  - vm_compute. reflexivity.
  - vm_compute. apply elem_of_cons. by left.
Defined.

Lemma X23_witness :
  let names := Segment <$> Insights.customer_stats example_segments in
  let number_in s :=
    default 0%nat (segment_distribution example_segments !! s) in
  (∀ s, segment_distribution example_segments !! s
        = if decide (s ∈ names) then Some (count_of s names) else None)
  ∧ (∀ s, is_Some (segment_distribution example_segments !! s) →
          s ∈ ["High Value"; "Medium Value"; "Low Value"])
  ∧ (number_in "High Value" + number_in "Medium Value" + number_in "Low Value"
     = length (Insights.customer_stats example_segments))%nat.
Proof.
  apply (X23_segment_distribution_counts_customers example_insights
           example_store example_segments).
  vm_compute. reflexivity.
Defined.

Lemma X25_witness :
  ∃ insights,
    get_customer_insights example_frame = Ok insights
    ∧ (0 < total_customers insights)%nat
    ∧ avg_purchases_per_customer insights
      = (inject_Z (Z.of_nat (length (rows example_frame)))
         / inject_Z (Z.of_nat (total_customers insights)))%Q
    ∧ DataPrepMore.avg_basket_size insights
      = avg_purchases_per_customer insights.
Proof.
  apply (X25_customer_insights_average_is_per_customer example_frame).
  vm_compute. discriminate.
Defined.


End more_examples.
